(** * MetamaskProvider: a shallow embedding of the wallet adapter

    The class [MetamaskProvider] is a singleton object with two fields
    ([account], [initialized]) whose methods talk to the MetaMask
    extension through [safeWindow.ethereum.request].  Every method is
    embedded as a computation in a small monad that threads the provider
    object, may throw, and records each call that leaves the adapter.

    The browser and the libraries are not part of the adapter:
    - the world a call sees (the [ethereum] marker, what each RPC answers,
      what [connectSnap] and [getSnap] of [./snap] answer) is an [Env]
      handed to the method, so that two calls may see two worlds;
    - the value objects and codecs of [@multiversx/sdk-core], the runtime
      codecs and the constant of [./config] are the fields of the class
      [Imports].

    [await] is sequential composition: the single-threaded run of one
    method is modelled, not the interleaving of two pending ones. *)

From Stdlib Require Import List String Ascii Bool ZArith NArith Lia.
From Stdlib Require Import Strings.Byte.
Import ListNotations.
Open Scope string_scope.
Open Scope list_scope.


(** ** JavaScript values that cross the RPC boundary *)

(** The casts [as string] and [as string[]] of the source are erased at
    run time, so a response is kept as the value it is. *)
#[warnings="-register-all"] Inductive JsVal : Type :=
| JUndefined
| JNull
| JBool (b : bool)
| JNum (n : Z)
| JStr (s : string)
| JArr (items : list JsVal)
| JObj (fields : list (string * JsVal)).

(** [Boolean(v)] and the test of [if (v)] or [!v]. *)
Definition truthy (v : JsVal) : bool :=
  match v with
  | JUndefined | JNull => false
  | JBool b => b
  | JNum n => negb (n =? 0)%Z
  | JStr s => negb (s =? "")
  | JArr _ | JObj _ => true
  end.

(** [v !== undefined]. *)
Definition is_defined (v : JsVal) : bool :=
  match v with JUndefined => false | _ => true end.

(** ** What a method can throw *)

Definition not_initialised_msg : string :=
  "Metamask provider is not initialised, call init() first".

Inductive Thrown : Type :=
| JsError (message : string)          (* new Error(message) *)
| TypeError (message : string)        (* raised by the runtime *)
| ErrAccountNotConnected              (* ./errors *)
| ErrCannotSignSingleTransaction      (* ./errors *)
| ErrTransactionCancelled             (* ./errors *)
| Rejection (reason : JsVal)          (* a rejected RPC promise *)
| LibraryError (message : string).    (* thrown inside sdk-core *)

(** The [NotInitialized] kind of the specification: the plain [Error]
    whose message starts with [not_initialised_msg]. *)
Definition is_NotInitialized (e : Thrown) : bool :=
  match e with
  | JsError m => prefix not_initialised_msg m
  | _ => false
  end.

Inductive Result (A : Type) : Type :=
| Return (a : A)
| Throw (e : Thrown).
Arguments Return {A} a.
Arguments Throw {A} e.

(** A settled promise. *)
Inductive Outcome : Type :=
| Resolved (v : JsVal)
| Rejected (reason : JsVal).

(** ** Bytes and [Buffer.from(s, 'hex')] *)

Definition Bytes := list byte.

Definition hex_digit (c : ascii) : option N :=
  let n := N_of_ascii c in
  if ((48 <=? n) && (n <=? 57))%N then Some (n - 48)%N
  else if ((97 <=? n) && (n <=? 102))%N then Some (n - 87)%N
  else if ((65 <=? n) && (n <=? 70))%N then Some (n - 55)%N
  else None.

Definition byte_of_nibbles (hi lo : N) : byte :=
  byte_of_ascii (ascii_of_N (16 * hi + lo)).

(** A hexadecimal text: an even number of hexadecimal digits. *)
Fixpoint is_hex (s : string) : bool :=
  match s with
  | EmptyString => true
  | String c1 (String c2 rest) =>
      match hex_digit c1, hex_digit c2 with
      | Some _, Some _ => is_hex rest
      | _, _ => false
      end
  | String _ EmptyString => false
  end.

(** One byte per pair of digits.  On a hexadecimal text this is what
    every [Buffer] does; on other texts (where Node and the browser
    [Buffer] disagree) it stops at the first pair that is not one. *)
Fixpoint hex_decode (s : string) : Bytes :=
  match s with
  | String c1 (String c2 rest) =>
      match hex_digit c1, hex_digit c2 with
      | Some hi, Some lo => byte_of_nibbles hi lo :: hex_decode rest
      | _, _ => []
      end
  | _ => []
  end.

Definition nibble_char (n : N) : ascii :=
  if (n <? 10)%N then ascii_of_N (48 + n) else ascii_of_N (87 + n).

(** [buf.toString('hex')]: two lower-case digits per byte. *)
Fixpoint hex_encode (bs : Bytes) : string :=
  match bs with
  | [] => ""
  | b :: rest =>
      let n := Byte.to_N b in
      String (nibble_char (n / 16)) (String (nibble_char (n mod 16)) (hex_encode rest))
  end.

(** ** The libraries the adapter is linked with *)

(** What the file of the provider imports and does not define: the value
    objects of [@multiversx/sdk-core], the runtime codecs it calls, and the
    snap identifier of [./config].  A call may throw; what it is handed is
    the run-time value, whatever the annotation says. *)
Class Imports : Type := {
  (* defaultSnapOrigin of ./config *)
  defaultSnapOrigin : string;
  Address : Type;
  Transaction : Type;
  PlainTransaction : Type;
  (* transaction.toPlainObject() *)
  toPlainObject : Transaction -> Result PlainTransaction;
  (* JSON.parse(text) *)
  JSON_parse : JsVal -> Result JsVal;
  (* Transaction.fromPlainObject(obj) *)
  fromPlainObject : JsVal -> Result Transaction;
  (* Address.fromBech32(text) *)
  fromBech32 : JsVal -> Result Address;
  (* Buffer.from(bytes).toString() *)
  bufferToString : Bytes -> string;
  (* Buffer.from(value, 'hex') when value is not a hexadecimal text *)
  Buffer_from_other : JsVal -> Result Bytes
}.

Section Provider.

Context {imports : Imports}.

(** The [Message] value object: the options [new Message({...})] is given
    are the fields it carries. *)
Record Message : Type := mkMessage {
  msg_data : Bytes;
  msg_address : option Address;
  msg_signer : string;
  msg_version : Z;
  msg_signature : option Bytes
}.

(** ** The RPC surface *)

(** The inner [request] of the envelope: snap method and its [params]. *)
Inductive SnapRequest : Type :=
| mvx_getAddress
| mvx_signAuthToken (token : string)
| mvx_signTransactions (transactions : list PlainTransaction)
| mvx_signMessage (message : string).

(** [{ method: 'wallet_invokeSnap', params: { snapId, request } }]. *)
Inductive RpcCall : Type :=
| wallet_invokeSnap (snapId : string) (request : SnapRequest).

(** [window.ethereum]: the identity flag and what [request] settles to. *)
Record Ethereum : Type := mkEthereum {
  isMetaMask : JsVal;
  request : RpcCall -> Outcome
}.

(** The world one method call runs in.  [ethereum = None] is both the
    window without the marker and the [{}] that stands for no window. *)
Record Env : Type := mkEnv {
  ethereum : option Ethereum;
  connectSnap : Outcome;
  getSnap : Outcome
}.

(** What left the adapter, with the answer it got. *)
Inductive Event : Type :=
| CallConnectSnap (o : Outcome)
| CallGetSnap (o : Outcome)
| CallRequest (c : RpcCall) (o : Outcome).

(** ** The provider object *)

Record IMetamaskWalletAccount : Type := mkAccount {
  address : JsVal;
  name : option string;
  signature : option JsVal
}.

Record MetamaskProvider : Type := mkProvider {
  account : IMetamaskWalletAccount;
  initialized : bool
}.

(** [{ address: '' }]. *)
Definition empty_account : IMetamaskWalletAccount :=
  {| address := JStr ""; name := None; signature := None |}.

(** The instance the static initialiser builds. *)
Definition new_MetamaskProvider : MetamaskProvider :=
  {| account := empty_account; initialized := false |}.

(** ** The monad of a method body *)

Definition M (A : Type) : Type :=
  MetamaskProvider -> Result A * MetamaskProvider * list Event.

Definition ret {A} (a : A) : M A := fun this => (Return a, this, []).

Definition throw {A} (e : Thrown) : M A := fun this => (Throw e, this, []).

Definition bind {A B} (m : M A) (k : A -> M B) : M B :=
  fun this =>
    match m this with
    | (Return a, this1, evs1) =>
        match k a this1 with
        | (r, this2, evs2) => (r, this2, evs1 ++ evs2)
        end
    | (Throw e, this1, evs1) => (Throw e, this1, evs1)
    end.

(** [try { body } catch (error) { handler }]: what [body] wrote to the
    object before it threw stays written. *)
Definition try_catch {A} (body : M A) (handler : Thrown -> M A) : M A :=
  fun this =>
    match body this with
    | (Return a, this1, evs1) => (Return a, this1, evs1)
    | (Throw e, this1, evs1) =>
        match handler e this1 with
        | (r, this2, evs2) => (r, this2, evs1 ++ evs2)
        end
    end.

Definition get : M MetamaskProvider := fun this => (Return this, this, []).

Definition gets {A} (f : MetamaskProvider -> A) : M A :=
  fun this => (Return (f this), this, []).

Definition modify (f : MetamaskProvider -> MetamaskProvider) : M unit :=
  fun this => (Return tt, f this, []).

(** [await p] for a promise that leaves the adapter. *)
Definition await (ev : Outcome -> Event) (p : Outcome) : M JsVal :=
  fun this =>
    match p with
    | Resolved v => (Return v, this, [ev p])
    | Rejected reason => (Throw (Rejection reason), this, [ev p])
    end.

(** A library call inside a method body. *)
Definition lift {A} (r : Result A) : M A := fun this => (r, this, []).

Notation "x <- m ;; k" := (bind m (fun x => k))
  (at level 61, m at next level, right associativity).
Notation "m ;; k" := (bind m (fun _ => k))
  (at level 61, right associativity).

(** [xs.map(f)] for an [f] that may throw: left to right, up to the first
    throw. *)
Fixpoint map_result {A B} (f : A -> Result B) (xs : list A) : Result (list B) :=
  match xs with
  | [] => Return []
  | x :: rest =>
      match f x with
      | Throw e => Throw e
      | Return y =>
          match map_result f rest with
          | Throw e => Throw e
          | Return ys => Return (y :: ys)
          end
      end
  end.

(** [v.map(f)] on a response: only an array has the method. *)
Definition js_map {B} (f : JsVal -> Result B) (v : JsVal) : Result (list B) :=
  match v with
  | JArr items => map_result f items
  | JUndefined | JNull => Throw (TypeError "Cannot read properties of undefined (reading 'map')")
  | _ => Throw (TypeError "map is not a function")
  end.

(** [Buffer.from(v, 'hex')]. *)
Definition Buffer_from_hex (v : JsVal) : Result Bytes :=
  match v with
  | JStr h => if is_hex h then Return (hex_decode h) else Buffer_from_other v
  | other => Buffer_from_other other
  end.

(** ['text' + token] for an optional [token]. *)
Definition concat_optional (text : string) (token : option string) : string :=
  match token with
  | Some t => (text ++ t)%string
  | None => (text ++ "undefined")%string
  end.

Definition with_address (v : JsVal) (acc : IMetamaskWalletAccount)
  : IMetamaskWalletAccount :=
  {| address := v; name := name acc; signature := signature acc |}.

Definition with_signature (v : JsVal) (acc : IMetamaskWalletAccount)
  : IMetamaskWalletAccount :=
  {| address := address acc; name := name acc; signature := Some v |}.

Definition with_account (acc : IMetamaskWalletAccount) (this : MetamaskProvider)
  : MetamaskProvider :=
  {| account := acc; initialized := initialized this |}.

Definition with_initialized (b : bool) (this : MetamaskProvider)
  : MetamaskProvider :=
  {| account := account this; initialized := b |}.

(** ** The methods *)

(** [safeWindow && safeWindow.ethereum && safeWindow.ethereum.isMetaMask]:
    [safeWindow] is always an object. *)
Definition isMetamaskInstalled (env : Env) : bool :=
  match ethereum env with
  | None => false
  | Some eth => truthy (isMetaMask eth)
  end.

(** [safeWindow?.ethereum?.request({ method: 'wallet_invokeSnap', ... })]:
    without the marker the chain yields [undefined] and nothing is sent. *)
Definition invokeSnap (env : Env) (r : SnapRequest) : M JsVal :=
  match ethereum env with
  | None => ret JUndefined
  | Some eth =>
      let c := wallet_invokeSnap defaultSnapOrigin r in
      await (CallRequest c) (request eth c)
  end.

(** Returns the singleton, which the caller holds already. *)
Definition setAddress (a : string) : M unit :=
  modify (fun this => with_account (with_address (JStr a) (account this)) this).

Definition getAccount : M IMetamaskWalletAccount := gets account.

Definition setAccount (acc : IMetamaskWalletAccount) : M unit :=
  modify (with_account acc).

Definition init (env : Env) : M bool :=
  let hasMetamask := isMetamaskInstalled env in
  this <- get ;;
  (if hasMetamask && negb (initialized this) then
     try_catch
       (await CallConnectSnap (connectSnap env) ;;
        installedSnap <- await CallGetSnap (getSnap env) ;;
        modify (with_initialized (is_defined installedSnap)))
       (fun _ => modify (with_initialized false))
   else ret tt) ;;
  gets initialized.

Definition login (env : Env) (token : option string) : M IMetamaskWalletAccount :=
  this <- get ;;
  if negb (initialized this) then
    throw (JsError (concat_optional not_initialised_msg token))
  else
    try_catch
      (addr <- invokeSnap env mvx_getAddress ;;
       modify (fun this => with_account (with_address addr (account this)) this) ;;
       match token with
       | Some t =>
           if truthy (JStr t) then
             tokenSigned <- invokeSnap env (mvx_signAuthToken t) ;;
             modify (fun this =>
                       with_account (with_signature tokenSigned (account this)) this)
           else ret tt
       | None => ret tt
       end)
      (fun error => throw error) ;;
    gets account.

Definition logout : M bool :=
  this <- get ;;
  if negb (initialized this) then throw (JsError not_initialised_msg)
  else
    modify (with_account empty_account) ;;
    ret true.

(** [this.account ? this.account.address : '']: the field always holds an
    object, so the first branch is the one taken. *)
Definition getAddress : M JsVal :=
  this <- get ;;
  if negb (initialized this) then throw (JsError not_initialised_msg)
  else ret (address (account this)).

Definition isInitialized : M bool := gets initialized.

Definition isConnected : M bool :=
  gets (fun this => truthy (address (account this))).

(** [(transaction: string) => Transaction.fromPlainObject(JSON.parse(transaction))],
    the callback mapped over the response. *)
Definition parse_signed (transaction : JsVal) : Result Transaction :=
  match JSON_parse transaction with
  | Return obj => fromPlainObject obj
  | Throw e => Throw e
  end.

Definition signTransactions (env : Env) (transactions : list Transaction)
  : M (list Transaction) :=
  try_catch
    (transactionsPlain <- lift (map_result toPlainObject transactions) ;;
     metamaskReponse <- invokeSnap env (mvx_signTransactions transactionsPlain) ;;
     transactionsResponse <- lift (js_map parse_signed metamaskReponse) ;;
     ret transactionsResponse)
    (fun _ => throw ErrTransactionCancelled).

(** [signTransaction] over whatever [this.signTransactions] is bound to.
    [signedTransactions[0]] is an index read, hence the [option]. *)
Definition signTransaction_with
    (batch : list Transaction -> M (list Transaction)) (transaction : Transaction)
  : M (option Transaction) :=
  signedTransactions <- batch [transaction] ;;
  if negb (List.length signedTransactions =? 1)%nat then
    throw ErrCannotSignSingleTransaction
  else ret (nth_error signedTransactions 0).

Definition signTransaction (env : Env) (transaction : Transaction)
  : M (option Transaction) :=
  signTransaction_with (signTransactions env) transaction.

Definition ensureConnected (env : Env) : M unit :=
  let hasMetamask := isMetamaskInstalled env in
  this <- get ;;
  if negb (truthy (address (account this))) || negb hasMetamask then
    throw ErrAccountNotConnected
  else ret tt.

Definition signMessage (env : Env) (messageToSign : Message) : M Message :=
  try_catch
    (ensureConnected env ;;
     metamaskReponse <-
       invokeSnap env (mvx_signMessage (bufferToString (msg_data messageToSign))) ;;
     this <- get ;;
     addr <- match msg_address messageToSign with
             | Some a => ret a
             | None => lift (fromBech32 (address (account this)))
             end ;;
     sig <- lift (Buffer_from_hex metamaskReponse) ;;
     ret {| msg_data := msg_data messageToSign;
            msg_address := Some addr;
            msg_signer := "metamask";
            msg_version := msg_version messageToSign;
            msg_signature := Some sig |})
    (fun error => throw error).

Definition cancelAction : M bool := ret false.

(** ** Sessions: sequences of method calls on the singleton

    [getAccount] and [login] hand out the account object itself and
    [setAccount] keeps the object it is given.  A session is made of
    method calls only: what a caller writes into such an object between
    two calls is not part of it. *)

Inductive Call : Type :=
| call_setAddress (a : string)
| call_getAccount
| call_setAccount (acc : IMetamaskWalletAccount)
| call_init
| call_login (token : option string)
| call_logout
| call_getAddress
| call_isInitialized
| call_isConnected
| call_signTransaction (transaction : Transaction)
| call_signTransactions (transactions : list Transaction)
| call_signMessage (messageToSign : Message)
| call_cancelAction.

(** One call as the caller saw it: which method, whether it returned
    (rather than threw), and what it sent out. *)
Inductive Observation : Type :=
| Obs (c : Call) (returned : bool) (sent : list Event).

Definition observe {A} (m : M A) (this : MetamaskProvider)
  : bool * MetamaskProvider * list Event :=
  match m this with
  | (Return _, this', evs) => (true, this', evs)
  | (Throw _, this', evs) => (false, this', evs)
  end.

Definition perform (env : Env) (c : Call) (this : MetamaskProvider)
  : bool * MetamaskProvider * list Event :=
  match c with
  | call_setAddress a => observe (setAddress a) this
  | call_getAccount => observe getAccount this
  | call_setAccount acc => observe (setAccount acc) this
  | call_init => observe (init env) this
  | call_login token => observe (login env token) this
  | call_logout => observe logout this
  | call_getAddress => observe getAddress this
  | call_isInitialized => observe isInitialized this
  | call_isConnected => observe isConnected this
  | call_signTransaction t => observe (signTransaction env t) this
  | call_signTransactions ts => observe (signTransactions env ts) this
  | call_signMessage m => observe (signMessage env m) this
  | call_cancelAction => observe cancelAction this
  end.

(** The provider after a session that used only the calls in [allowed],
    each in a world of its own, with the record of the session (latest
    call last). *)
Inductive reachable (allowed : Call -> bool)
  : MetamaskProvider -> list Observation -> Prop :=
| reach_new : reachable allowed new_MetamaskProvider []
| reach_call this session env c returned this' sent :
    reachable allowed this session ->
    allowed c = true ->
    perform env c this = (returned, this', sent) ->
    reachable allowed this' (session ++ [Obs c returned sent]).

Definition any_call (c : Call) : bool := true.

(** Every method but the two setters of the account. *)
Definition not_a_setter (c : Call) : bool :=
  match c with
  | call_setAddress _ | call_setAccount _ => false
  | _ => true
  end.

(** Some [login] of the session returned. *)
Definition login_succeeded (session : list Observation) : Prop :=
  exists token sent, In (Obs (call_login token) true sent) session.

(** Some [login] of the session was answered a non-empty address. *)
Definition address_received (session : list Observation) : Prop :=
  exists token returned sent v,
    In (Obs (call_login token) returned sent) session /\
    In (CallRequest (wallet_invokeSnap defaultSnapOrigin mvx_getAddress) (Resolved v)) sent /\
    truthy v = true.

(** Some [init] of the session saw both steps of the handshake resolve,
    the second with a snap. *)
Definition handshake_done (session : list Observation) : Prop :=
  exists returned v1 v2,
    In (Obs call_init returned [CallConnectSnap (Resolved v1); CallGetSnap (Resolved v2)])
       session /\
    is_defined v2 = true.

(** The handshake of [init] in a given world. *)
Definition handshake_succeeds (env : Env) : Prop :=
  exists v1 v2,
    connectSnap env = Resolved v1 /\ getSnap env = Resolved v2 /\ is_defined v2 = true.

Definition handshake_fails (env : Env) : Prop :=
  (exists reason, connectSnap env = Rejected reason) \/
  (exists reason, getSnap env = Rejected reason) \/
  getSnap env = Resolved JUndefined.

(** [isConnected()] as a predicate on the object. *)
Definition connected (this : MetamaskProvider) : bool :=
  truthy (address (account this)).

(** The invariant as the specification words it: a non-empty address only
    on an initialized provider on which a [login] has succeeded. *)
Definition specified_invariant
    (this : MetamaskProvider) (session : list Observation) : Prop :=
  connected this = true -> initialized this = true /\ login_succeeded session.

(** The invariant the methods other than the setters keep: a non-empty
    address only on an initialized provider, after a [login] was answered
    a non-empty address. *)
Definition address_invariant
    (this : MetamaskProvider) (session : list Observation) : Prop :=
  connected this = true -> initialized this = true /\ address_received session.

(** ** What a call may send *)

(** The envelope every snap request of the adapter is wrapped in. *)
Definition snap_call (r : SnapRequest) : RpcCall :=
  wallet_invokeSnap defaultSnapOrigin r.

(** The requests one call of a method can be the origin of, read off its
    body: the two handshake helpers for [init], the address and (for a
    non-empty token) the token signature for [login], the one batch for
    the transaction signers, the text of the message for [signMessage],
    nothing for the rest. *)
Definition may_send (env : Env) (c : Call) (e : Event) : Prop :=
  match c with
  | call_init =>
      e = CallConnectSnap (connectSnap env) \/ e = CallGetSnap (getSnap env)
  | call_login token =>
      (exists o, e = CallRequest (snap_call mvx_getAddress) o) \/
      (exists t o,
          token = Some t /\ t <> "" /\
          e = CallRequest (snap_call (mvx_signAuthToken t)) o)
  | call_signTransaction t =>
      exists plain o,
        map_result toPlainObject [t] = Return plain /\
        e = CallRequest (snap_call (mvx_signTransactions plain)) o
  | call_signTransactions ts =>
      exists plain o,
        map_result toPlainObject ts = Return plain /\
        e = CallRequest (snap_call (mvx_signTransactions plain)) o
  | call_signMessage m =>
      exists o,
        e = CallRequest (snap_call (mvx_signMessage (bufferToString (msg_data m)))) o
  | _ => False
  end.

(** The methods that only read the object. *)
Definition reads_only (c : Call) : bool :=
  match c with
  | call_getAccount | call_getAddress | call_isInitialized | call_isConnected
  | call_signTransaction _ | call_signTransactions _ | call_signMessage _
  | call_cancelAction => true
  | _ => false
  end.

(** An event of the handshake, as opposed to a snap request. *)
Definition is_handshake_event (e : Event) : bool :=
  match e with
  | CallConnectSnap _ | CallGetSnap _ => true
  | CallRequest _ _ => false
  end.

End Provider.

(** ** The singleton

    The class keeps the one provider in the static slot [_instance].  An
    object is known here by its reference; [new] hands the constructor the
    reference of the object it has just allocated. *)
Module Singleton.

Definition Ref := nat.

Definition instantiation_failed : string :=
  "Error: Instantiation failed: Use MetamaskProvider.getInstance() instead of new.".

(** The private constructor on the freshly allocated [this], given the
    slot: the new reference (or the error) and the slot afterwards. *)
Definition constructor (this : Ref) (_instance : option Ref)
  : Result Ref * option Ref :=
  match _instance with
  | Some _ => (Throw (JsError instantiation_failed), _instance)
  | None => (Return this, Some this)
  end.

(** [private static _instance = new MetamaskProvider()]: the slot is
    still empty when the initialiser runs the constructor, and is assigned
    what [new] returned. *)
Definition static_initializer (first : Ref) : option Ref :=
  match constructor first None with
  | (Return r, _) => Some r
  | (Throw _, slot) => slot
  end.

Definition getInstance (_instance : option Ref) : option Ref := _instance.

(** Further attempts at [new MetamaskProvider()], one per reference. *)
Fixpoint construct_all (attempts : list Ref) (_instance : option Ref)
  : list (Result Ref) * option Ref :=
  match attempts with
  | [] => ([], _instance)
  | this :: rest =>
      match constructor this _instance with
      | (r, slot) =>
          match construct_all rest slot with
          | (rs, slot') => (r :: rs, slot')
          end
      end
  end.

End Singleton.

(** ** A concrete library to run the adapter against *)

(** The bech32 codec behind [Address.fromBech32] (the [bech32] package):
    not code of the adapter, written out so that sessions with real
    addresses can be evaluated. *)
Module Bech32.

Local Open Scope N_scope.

Definition ALPHABET : string := "qpzry9x8gf2tvdw0s3jn54khce6mua7l".

Fixpoint index_from (c : ascii) (s : string) (i : N) : option N :=
  match s with
  | EmptyString => None
  | String d rest => if Ascii.eqb c d then Some i else index_from c rest (i + 1)
  end.

Definition ALPHABET_MAP (c : ascii) : option N := index_from c ALPHABET 0.

(** The generator constants are 0x3b6a57b2, 0x26508e6d, 0x1ea119fa,
    0x3d4233dd and 0x2a1462b3. *)
Definition polymodStep (pre : N) : N :=
  let b := N.shiftr pre 25 in
  let gen (i g : N) := if N.testbit b i then g else 0 in
  N.lxor (N.shiftl (N.land pre 33554431) 5)
    (N.lxor (gen 0 996825010)
      (N.lxor (gen 1 642813549)
        (N.lxor (gen 2 513874426)
          (N.lxor (gen 3 1027748829) (gen 4 705979059))))).

Fixpoint fold_chars (f : N -> ascii -> option N) (s : string) (chk : N) : option N :=
  match s with
  | EmptyString => Some chk
  | String c rest =>
      match f chk c with
      | Some chk' => fold_chars f rest chk'
      | None => None
      end
  end.

Definition prefixChk (prefix : string) : option N :=
  match fold_chars (fun chk c =>
                      let n := N_of_ascii c in
                      if (n <? 33) || (126 <? n) then None
                      else Some (N.lxor (polymodStep chk) (N.shiftr n 5)))
                   prefix 1 with
  | None => None
  | Some chk =>
      fold_chars (fun chk c =>
                    Some (N.lxor (polymodStep chk) (N.land (N_of_ascii c) 31)))
                 prefix (polymodStep chk)
  end.

Fixpoint words_of (s : string) : option (list N) :=
  match s with
  | EmptyString => Some []
  | String c rest =>
      match ALPHABET_MAP c, words_of rest with
      | Some v, Some vs => Some (v :: vs)
      | _, _ => None
      end
  end.

Definition toLowerCase_char (c : ascii) : ascii :=
  let n := N_of_ascii c in
  if (65 <=? n) && (n <=? 90) then ascii_of_N (n + 32) else c.

Definition toUpperCase_char (c : ascii) : ascii :=
  let n := N_of_ascii c in
  if (97 <=? n) && (n <=? 122) then ascii_of_N (n - 32) else c.

Fixpoint map_chars (f : ascii -> ascii) (s : string) : string :=
  match s with
  | EmptyString => EmptyString
  | String c rest => String (f c) (map_chars f rest)
  end.

(** [str.lastIndexOf('1')], counting from [i]. *)
Fixpoint lastIndexOf_one (s : string) (i : nat) : option nat :=
  match s with
  | EmptyString => None
  | String c rest =>
      match lastIndexOf_one rest (S i) with
      | Some j => Some j
      | None => if Ascii.eqb c "1" then Some i else None
      end
  end.

(** Prefix and data words of a bech32 text, checksum verified and
    removed; [None] where the package reports an error. *)
Definition decode (text : string) : option (string * list N) :=
  let len := String.length text in
  if (len <? 8)%nat then None
  else if (90 <? len)%nat then None
  else
    let lowered := map_chars toLowerCase_char text in
    let uppered := map_chars toUpperCase_char text in
    if negb (String.eqb text lowered) && negb (String.eqb text uppered) then None
    else
      match lastIndexOf_one lowered 0 with
      | None => None
      | Some O => None
      | Some split =>
          let prefix := substring 0 split lowered in
          let wordChars := substring (S split) (len - S split) lowered in
          if (String.length wordChars <? 6)%nat then None
          else
            match prefixChk prefix, words_of wordChars with
            | Some chk, Some ws =>
                let chk' := fold_left (fun chk v => N.lxor (polymodStep chk) v) ws chk in
                if chk' =? 1 then Some (prefix, firstn (List.length ws - 6) ws)
                else None
            | _, _ => None
            end
      end.

(** [convert(words, 5, 8, false)]: regroup five-bit words into bytes,
    refusing excess or non-zero padding. *)
Fixpoint convert_5_8 (data : list N) (value bits : N) : option (list N) :=
  match data with
  | [] =>
      if 5 <=? bits then None
      else if negb (N.land (N.shiftl value (8 - bits)) 255 =? 0) then None
      else Some []
  | d :: rest =>
      let value := N.lor (N.shiftl value 5) d in
      let bits := bits + 5 in
      if 8 <=? bits then
        let bits := bits - 8 in
        match convert_5_8 rest (N.land value (N.ones bits)) bits with
        | Some out => Some (N.land (N.shiftr value bits) 255 :: out)
        | None => None
        end
      else convert_5_8 rest value bits
  end.

Definition fromWords (ws : list N) : option Bytes :=
  match convert_5_8 ws 0 0 with
  | Some ns => Some (map (fun n => byte_of_ascii (ascii_of_N n)) ns)
  | None => None
  end.

Definition HRP : string := "erd".

Definition PUBKEY_LENGTH : nat := 32.

(** An address is its public key. *)
Definition fromBech32 (v : JsVal) : Result Bytes :=
  match v with
  | JStr text =>
      match decode text with
      | None => Throw (LibraryError "ErrAddressCannotCreate")
      | Some (prefix, words) =>
          if negb (String.eqb prefix HRP) then Throw (LibraryError "ErrAddressBadHrp")
          else
            match fromWords words with
            | None => Throw (LibraryError "ErrAddressCannotCreate")
            | Some pubkey =>
                if (List.length pubkey =? PUBKEY_LENGTH)%nat then Return pubkey
                else Throw (LibraryError "ErrAddressCannotCreate")
            end
      end
  | _ => Throw (LibraryError "ErrAddressCannotCreate")
  end.

End Bech32.

(** A test double for the rest of the imports, enough for the sessions
    evaluated below.  Transactions are their plain objects; [JSON.parse]
    knows a handful of literal texts and refuses every other value. *)
Module TestDouble.

Definition parse_literal (v : JsVal) : Result JsVal :=
  match v with
  | JStr "{}" => Return (JObj [])
  | JStr "[]" => Return (JArr [])
  | JStr "null" => Return JNull
  | JStr "true" => Return (JBool true)
  | JStr "false" => Return (JBool false)
  | _ => Throw (LibraryError "SyntaxError")
  end.

Definition of_plain_object (v : JsVal) : Result JsVal :=
  match v with
  | JObj fields => Return (JObj fields)
  | _ => Throw (TypeError "Cannot read properties of a value that is not an object")
  end.

(** Node: a text is decoded up to its first pair that is not hexadecimal;
    the double refuses every other kind of value. *)
Definition decode_other (v : JsVal) : Result Bytes :=
  match v with
  | JStr h => Return (hex_decode h)
  | _ => Throw (TypeError "The first argument must be of type string")
  end.

Definition imports : Imports :=
  {| defaultSnapOrigin := "npm:@multiversx/metamask-snap";
     Address := Bytes;
     Transaction := JsVal;
     PlainTransaction := JsVal;
     toPlainObject := fun t => Return t;
     JSON_parse := parse_literal;
     fromPlainObject := of_plain_object;
     fromBech32 := Bech32.fromBech32;
     bufferToString := string_of_list_byte;
     Buffer_from_other := decode_other |}.

End TestDouble.

(** Texts used as addresses in the sessions below. *)
Definition alice_bech32 : string :=
  "erd1qyu5wthldzr8wx5c9ucg8kjagg0jfs53s8nr3zpz3hypefsdd8ssycr6th".

Definition alice_pubkey : Bytes :=
  hex_decode "0139472eff6886771a982f3083da5d421f24c29181e63888228dc81ca60d69e1".

Definition ethereum_style_address : string :=
  "0x71C7656EC7ab88b098defB751B7401B5f6d8976F".

(** Worlds, objects and sessions evaluated in the examples. *)
Module Worlds.

#[local] Existing Instance TestDouble.imports.

Definition snap_metadata : JsVal :=
  JObj [("id", JStr "npm:@multiversx/metamask-snap"); ("version", JStr "1.0.0")].

Definition user_rejected : JsVal := JStr "User rejected the request.".

(** An identified extension that answers the snap methods through [answer]. *)
Definition extension (answer : SnapRequest -> Outcome) : Ethereum :=
  {| isMetaMask := JBool true;
     request := fun c => match c with wallet_invokeSnap _ r => answer r end |}.

(** The wallet of Alice approving everything: her address, ["deadbeef"]
    for a token, one ["{}"] per transaction, ["aa"] for a message. *)
Definition approving (r : SnapRequest) : Outcome :=
  match r with
  | mvx_getAddress => Resolved (JStr alice_bech32)
  | mvx_signAuthToken _ => Resolved (JStr "deadbeef")
  | mvx_signTransactions plain => Resolved (JArr (map (fun _ => JStr "{}") plain))
  | mvx_signMessage _ => Resolved (JStr "aa")
  end.

(** The same wallet with the user declining every signature. *)
Definition declining (r : SnapRequest) : Outcome :=
  match r with
  | mvx_getAddress => Resolved (JStr alice_bech32)
  | _ => Rejected user_rejected
  end.

(** A wallet whose answer to a batch is not what the adapter expects. *)
Definition confused (r : SnapRequest) : Outcome :=
  match r with
  | mvx_signTransactions [] => Resolved (JArr [])
  | mvx_signTransactions [_] => Resolved (JArr [JStr "{"])
  | mvx_signTransactions _ => Resolved (JStr "signed")
  | other => approving other
  end.

(** A wallet that answers a batch with no transaction at all. *)
Definition forgetful (r : SnapRequest) : Outcome :=
  match r with
  | mvx_signTransactions _ => Resolved (JArr [])
  | other => approving other
  end.

Definition world (answer : SnapRequest -> Outcome) : Env :=
  {| ethereum := Some (extension answer);
     connectSnap := Resolved JUndefined;
     getSnap := Resolved snap_metadata |}.

(** No marker on the window: the handshake helpers reject. *)
Definition world_without_extension : Env :=
  {| ethereum := None;
     connectSnap := Rejected (JStr "ethereum is undefined");
     getSnap := Rejected (JStr "ethereum is undefined") |}.

Definition initialized_provider : MetamaskProvider :=
  {| account := empty_account; initialized := true |}.

Definition provider_of (a : string) : MetamaskProvider :=
  {| account := with_address (JStr a) empty_account; initialized := true |}.

Definition handshake_events : list Event :=
  [CallConnectSnap (Resolved JUndefined); CallGetSnap (Resolved snap_metadata)].

Definition address_call : RpcCall :=
  wallet_invokeSnap defaultSnapOrigin mvx_getAddress.

Definition token_call (t : string) : RpcCall :=
  wallet_invokeSnap defaultSnapOrigin (mvx_signAuthToken t).

Definition message_call (text : string) : RpcCall :=
  wallet_invokeSnap defaultSnapOrigin (mvx_signMessage text).

Definition batch_call (plain : list JsVal) : RpcCall :=
  wallet_invokeSnap defaultSnapOrigin (mvx_signTransactions plain).

(** ["hello"] without an address, version 1. *)
Definition hello : Message :=
  {| msg_data := list_byte_of_string "hello";
     msg_address := None;
     msg_signer := "unknown";
     msg_version := 1;
     msg_signature := None |}.

Definition a_transaction : JsVal := JObj [("nonce", JNum 7)].

(** The fresh provider after [setAddress] with Alice's address. *)
Definition addressed_provider : MetamaskProvider :=
  {| account := with_address (JStr alice_bech32) empty_account;
     initialized := false |}.

Definition named_account : IMetamaskWalletAccount :=
  {| address := JStr alice_bech32; name := Some "alice"; signature := None |}.


(** A marker that does not identify itself as MetaMask. *)
Definition world_other_wallet : Env :=
  {| ethereum := Some {| isMetaMask := JUndefined;
                         request := fun _ => Resolved JNull |};
     connectSnap := Resolved JUndefined;
     getSnap := Resolved snap_metadata |}.

(** A locked wallet: every request is rejected. *)
Definition locked (r : SnapRequest) : Outcome := Rejected (JStr "wallet is locked").

(** A wallet that returns the signature ["0139"] for a message. *)
Definition echoing (r : SnapRequest) : Outcome :=
  match r with
  | mvx_signMessage _ => Resolved (JStr (hex_encode [x01; x39]))
  | other => approving other
  end.

Definition alice_account : IMetamaskWalletAccount :=
  {| address := JStr alice_bech32; name := None; signature := Some (JStr "deadbeef") |}.

Definition declined_login_session : list Observation :=
  [Obs call_init true handshake_events;
   Obs (call_login (Some "abc")) false
       [CallRequest address_call (Resolved (JStr alice_bech32));
        CallRequest (token_call "abc") (Rejected user_rejected)]].

End Worlds.

(** * Properties *)

(** ** The hexadecimal codec *)

Lemma hex_decode_aa : hex_decode "aa" = [xaa].
Proof. reflexivity. Qed.

Lemma is_hex_encode (bs : Bytes) : is_hex (hex_encode bs) = true.
Proof.
  induction bs as [|b rest IH]; [reflexivity|].
  cbn [hex_encode]. cbv zeta. revert IH. generalize (hex_encode rest).
  intros tail IH. destruct b; exact IH.
Qed.

Lemma hex_decode_length_upto (n : nat) (h : string) :
  String.length h <= n ->
  is_hex h = true -> String.length h = 2 * List.length (hex_decode h).
Proof.
  revert h. induction n as [|n IH]; intros [|c1 [|c2 rest]]; cbn;
    try discriminate; try reflexivity; try lia.
  intros Hlen.
  destruct (hex_digit c1); try discriminate.
  destruct (hex_digit c2); try discriminate.
  intros Hrest. cbn. rewrite (IH rest); [lia | lia | exact Hrest].
Qed.

(** A hexadecimal text of [2n] digits decodes to [n] bytes. *)
Lemma hex_decode_length (h : string) :
  is_hex h = true -> String.length h = 2 * List.length (hex_decode h).
Proof. now apply hex_decode_length_upto with (n := String.length h). Qed.

Lemma hex_pair_round_trip (b : byte) (rest : string) :
  hex_decode (String (nibble_char (Byte.to_N b / 16))
                (String (nibble_char (Byte.to_N b mod 16)) rest))
  = b :: hex_decode rest.
Proof. destruct b; reflexivity. Qed.

(** Decoding inverts the lower-case encoding of any byte sequence. *)
Lemma hex_decode_encode (bs : Bytes) : hex_decode (hex_encode bs) = bs.
Proof.
  induction bs as [|b rest IH].
  - reflexivity.
  - cbn [hex_encode]. cbv zeta. rewrite hex_pair_round_trip. now rewrite IH.
Qed.

(** ** The codec of addresses, on known vectors *)

Lemma fromBech32_alice : Bech32.fromBech32 (JStr alice_bech32) = Return alice_pubkey.
Proof. vm_compute. reflexivity. Qed.

Lemma fromBech32_refuses_hex_address :
  Bech32.fromBech32 (JStr ethereum_style_address)
  = Throw (LibraryError "ErrAddressCannotCreate").
Proof. vm_compute. reflexivity. Qed.

Lemma bech32_reference_vectors :
  Bech32.decode "A12UEL5L" = Some ("a", []) /\
  Bech32.decode "abcdef1qpzry9x8gf2tvdw0s3jn54khce6mua7lmqqqxw"
  = Some ("abcdef", map N.of_nat (seq 0 32)) /\
  Bech32.decode "abcdef1qpzry9x8gf2tvdw0s3jn54khce6mua7lmqqqxx" = None.
Proof. vm_compute. repeat split. Qed.

Section Properties.

Context {imports : Imports}.

(** ** Small facts about the pieces *)

Lemma prefix_append (s t : string) : prefix s (s ++ t)%string = true.
Proof.
  induction s as [|c s IH]; cbn.
  - now destruct t.
  - destruct (ascii_dec c c) as [_|ne]; [exact IH | now elim ne].
Qed.

Lemma prefix_refl (s : string) : prefix s s = true.
Proof.
  induction s as [|c s IH]; cbn; [reflexivity|].
  destruct (ascii_dec c c) as [_|ne]; [exact IH | now elim ne].
Qed.

Lemma not_initialised_kind (token : option string) :
  is_NotInitialized (JsError (concat_optional not_initialised_msg token)) = true.
Proof. destruct token; apply prefix_append. Qed.

Lemma with_initialized_same (this : MetamaskProvider) :
  with_initialized (initialized this) this = this.
Proof. now destruct this. Qed.

(** Unfolds a method body down to matches on the world and the object. *)
Ltac step_method :=
  unfold bind, try_catch, ret, throw, get, gets, modify, lift, await; cbn.

(** ** What each method does, case by case *)

(** [init], case by case on the guard and the two steps of the handshake. *)
Lemma init_cases (env : Env) (this : MetamaskProvider) :
  if isMetamaskInstalled env && negb (initialized this) then
    match connectSnap env with
    | Rejected reason =>
        init env this
        = (Return false, with_initialized false this, [CallConnectSnap (Rejected reason)])
    | Resolved v1 =>
        match getSnap env with
        | Rejected reason =>
            init env this
            = (Return false, with_initialized false this,
               [CallConnectSnap (Resolved v1); CallGetSnap (Rejected reason)])
        | Resolved v2 =>
            init env this
            = (Return (is_defined v2), with_initialized (is_defined v2) this,
               [CallConnectSnap (Resolved v1); CallGetSnap (Resolved v2)])
        end
    end
  else init env this = (Return (initialized this), this, []).
Proof.
  unfold init. step_method.
  destruct (isMetamaskInstalled env && negb (initialized this)); cbn; [|reflexivity].
  destruct (connectSnap env) as [v1|reason]; cbn; [|reflexivity].
  destruct (getSnap env) as [v2|reason]; reflexivity.
Qed.

(** [init] returns, and what it returns is the flag it leaves. *)
Lemma init_returns_flag (env : Env) (this : MetamaskProvider) :
  exists b sent,
    init env this = (Return b, with_initialized b this, sent) /\
    (b = true ->
     initialized this = true \/
     (isMetamaskInstalled env = true /\
      exists v1 v2,
        connectSnap env = Resolved v1 /\ getSnap env = Resolved v2 /\
        is_defined v2 = true /\
        sent = [CallConnectSnap (Resolved v1); CallGetSnap (Resolved v2)])).
Proof.
  pose proof (init_cases env this) as Hcases.
  destruct (isMetamaskInstalled env) eqn:Hmm; cbn [andb negb] in Hcases.
  - destruct (initialized this) eqn:Hinit; cbn [andb negb] in Hcases.
    + exists true, []. split; [|now left].
      rewrite Hcases. now rewrite <- Hinit, with_initialized_same.
    + destruct (connectSnap env) as [v1|reason].
      * destruct (getSnap env) as [v2|reason].
        -- eexists _, _. split; [exact Hcases|].
           intros Hdef. right. split; [reflexivity|]. now exists v1, v2.
        -- eexists _, _. split; [exact Hcases|]. discriminate.
      * eexists _, _. split; [exact Hcases|]. discriminate.
  - exists (initialized this), []. split.
    + now rewrite Hcases, with_initialized_same.
    + intros Hinit. now left.
Qed.

Lemma login_effect
    (env : Env) (token : option string) (this this' : MetamaskProvider)
    (r : Result IMetamaskWalletAccount) (sent : list Event) :
  login env token this = (r, this', sent) ->
  initialized this' = initialized this /\
  (address (account this') = address (account this) \/
   (initialized this = true /\
    (address (account this') = JUndefined \/
     In (CallRequest (wallet_invokeSnap defaultSnapOrigin mvx_getAddress)
                     (Resolved (address (account this')))) sent))).
Proof.
  unfold login, invokeSnap. step_method.
  destruct (initialized this) eqn:Hinit; cbn.
  2:{ intros H. inversion H; subst. rewrite Hinit. now split; [|left]. }
  destruct (ethereum env) as [eth|]; cbn.
  - destruct (request eth (wallet_invokeSnap defaultSnapOrigin mvx_getAddress))
      as [a|reason] eqn:Haddr; cbn.
    2:{ intros H. inversion H; subst. rewrite Hinit. now split; [|left]. }
    destruct token as [t|]; cbn.
    + destruct (negb (t =? "")%string); cbn.
      * destruct (request eth (wallet_invokeSnap defaultSnapOrigin (mvx_signAuthToken t)));
          cbn; intros H; inversion H; subst; cbn; (split; [exact Hinit|]);
          right; (split; [reflexivity|]); right; now left.
      * intros H; inversion H; subst; cbn. split; [exact Hinit|].
        right. split; [reflexivity|]. right. now left.
    + intros H; inversion H; subst; cbn. split; [exact Hinit|].
      right. split; [reflexivity|]. right. now left.
  - destruct token as [t|]; cbn.
    + destruct (negb (t =? "")%string); cbn;
        intros H; inversion H; subst; cbn; (split; [exact Hinit|]);
        right; (split; [reflexivity|]); now left.
    + intros H; inversion H; subst; cbn. split; [exact Hinit|].
      right. split; [reflexivity|]. now left.
Qed.

Lemma logout_effect (this this' : MetamaskProvider) (r : Result bool) (sent : list Event) :
  logout this = (r, this', sent) ->
  this' = this \/ this' = with_account empty_account this.
Proof.
  unfold logout. step_method.
  destruct (initialized this); cbn; intros H; inversion H; subst; auto.
Qed.

Lemma getAddress_effect (this this' : MetamaskProvider) (r : Result JsVal) (sent : list Event) :
  getAddress this = (r, this', sent) -> this' = this.
Proof.
  unfold getAddress. step_method.
  destruct (initialized this); cbn; intros H; now inversion H.
Qed.

(** What [signTransactions] does, case by case on its three steps. *)
Lemma signTransactions_cases
    (env : Env) (txs : list Transaction) (this : MetamaskProvider) :
  match map_result toPlainObject txs with
  | Throw _ => signTransactions env txs this = (Throw ErrTransactionCancelled, this, [])
  | Return plain =>
      let c := wallet_invokeSnap defaultSnapOrigin (mvx_signTransactions plain) in
      match ethereum env with
      | None => signTransactions env txs this = (Throw ErrTransactionCancelled, this, [])
      | Some eth =>
          match request eth c with
          | Rejected reason =>
              signTransactions env txs this
              = (Throw ErrTransactionCancelled, this, [CallRequest c (Rejected reason)])
          | Resolved v =>
              match js_map parse_signed v with
              | Throw _ =>
                  signTransactions env txs this
                  = (Throw ErrTransactionCancelled, this, [CallRequest c (Resolved v)])
              | Return signed =>
                  signTransactions env txs this
                  = (Return signed, this, [CallRequest c (Resolved v)])
              end
          end
      end
  end.
Proof.
  unfold signTransactions, invokeSnap. step_method.
  destruct (map_result toPlainObject txs) as [plain|e]; [|reflexivity]. cbn.
  destruct (ethereum env) as [eth|]; cbn; [|reflexivity].
  destruct (request eth _) as [v|reason]; cbn; [|reflexivity].
  destruct (js_map parse_signed v) as [signed|e]; reflexivity.
Qed.

Lemma signTransactions_effect
    (env : Env) (txs : list Transaction) (this this' : MetamaskProvider)
    (r : Result (list Transaction)) (sent : list Event) :
  signTransactions env txs this = (r, this', sent) -> this' = this.
Proof.
  pose proof (signTransactions_cases env txs this) as Hcases.
  destruct (map_result toPlainObject txs) as [plain|e]; cbv zeta in Hcases.
  - destruct (ethereum env) as [eth|].
    + destruct (request eth _) as [v|reason].
      * destruct (js_map parse_signed v); congruence.
      * congruence.
    + congruence.
  - congruence.
Qed.

Lemma signTransaction_effect
    (env : Env) (tx : Transaction) (this this' : MetamaskProvider)
    (r : Result (option Transaction)) (sent : list Event) :
  signTransaction env tx this = (r, this', sent) -> this' = this.
Proof.
  unfold signTransaction, signTransaction_with. step_method.
  destruct (signTransactions env [tx] this) as [[r0 this0] sent0] eqn:Hbatch.
  apply signTransactions_effect in Hbatch. subst this0.
  destruct r0 as [signed|e]; cbn.
  - destruct (negb (List.length signed =? 1)%nat); cbn;
      intros H; now inversion H.
  - intros H; now inversion H.
Qed.

Lemma signMessage_effect
    (env : Env) (m : Message) (this this' : MetamaskProvider)
    (r : Result Message) (sent : list Event) :
  signMessage env m this = (r, this', sent) -> this' = this.
Proof.
  unfold signMessage, ensureConnected, invokeSnap. step_method.
  destruct (negb (truthy (address (account this))) || negb (isMetamaskInstalled env));
    cbn; [intros H; now inversion H|].
  destruct (ethereum env) as [eth|]; cbn.
  - destruct (request eth _) as [v|reason]; cbn; [|intros H; now inversion H].
    destruct (msg_address m) as [own|]; cbn.
    + destruct (Buffer_from_hex v); cbn; intros H; now inversion H.
    + destruct (fromBech32 (address (account this))); cbn;
        [|intros H; now inversion H].
      destruct (Buffer_from_hex v); cbn; intros H; now inversion H.
  - destruct (msg_address m) as [own|]; cbn.
    + destruct (Buffer_from_other JUndefined); cbn; intros H; now inversion H.
    + destruct (fromBech32 (address (account this))); cbn;
        [|intros H; now inversion H].
      destruct (Buffer_from_other JUndefined); cbn; intros H; now inversion H.
Qed.

(** A non-array response is malformed: the call of [map] fails on it. *)
Lemma js_map_needs_array {B} (f : JsVal -> Result B) (v : JsVal) :
  (forall items, v <> JArr items) -> exists e, js_map f v = Throw e.
Proof.
  intros Hv. destruct v; cbn; eauto. now elim (Hv items).
Qed.

(** An element that does not parse makes the whole response fail. *)
Lemma map_result_fails {A B} (f : A -> Result B) (xs : list A) (x : A) (e : Thrown) :
  In x xs -> f x = Throw e -> exists e', map_result f xs = Throw e'.
Proof.
  induction xs as [|y rest IH]; cbn; [tauto|].
  intros [->|Hin] Hx.
  - rewrite Hx. eauto.
  - destruct (f y); [|eauto].
    destruct (IH Hin Hx) as [e' ->]. eauto.
Qed.

(** ** Sessions *)

Lemma observe_inv {A} (m : M A) (this this' : MetamaskProvider)
    (returned : bool) (sent : list Event) :
  observe m this = (returned, this', sent) ->
  exists r, m this = (r, this', sent).
Proof.
  unfold observe. destruct (m this) as [[r this0] sent0].
  destruct r; intros H; inversion H; subst; eauto.
Qed.

Lemma handshake_done_mono (session : list Observation) (o : Observation) :
  handshake_done session -> handshake_done (session ++ [o]).
Proof.
  intros (returned & v1 & v2 & Hin & Hdef).
  exists returned, v1, v2. split; [|exact Hdef].
  apply in_or_app. now left.
Qed.

Lemma handshake_done_last (session : list Observation) (o : Observation) :
  handshake_done [o] -> handshake_done (session ++ [o]).
Proof.
  intros (returned & v1 & v2 & Hin & Hdef).
  exists returned, v1, v2. split; [|exact Hdef].
  apply in_or_app. now right.
Qed.

Lemma address_received_mono (session : list Observation) (o : Observation) :
  address_received session -> address_received (session ++ [o]).
Proof.
  intros (token & returned & sent & v & Hin & Hsent & Hv).
  exists token, returned, sent, v. repeat split; try assumption.
  apply in_or_app. now left.
Qed.

Lemma address_received_last (session : list Observation) (o : Observation) :
  address_received [o] -> address_received (session ++ [o]).
Proof.
  intros (token & returned & sent & v & Hin & Hsent & Hv).
  exists token, returned, sent, v. repeat split; try assumption.
  apply in_or_app. now right.
Qed.

(** Only a completed handshake of [init] raises the flag. *)
Lemma perform_initialized
    (env : Env) (c : Call) (this this' : MetamaskProvider)
    (returned : bool) (sent : list Event) :
  perform env c this = (returned, this', sent) ->
  initialized this' = true ->
  initialized this = true \/ handshake_done [Obs c returned sent].
Proof.
  intros Hperform Hinit'.
  destruct c; cbn [perform] in Hperform.
  all: match goal with
       | H : observe (init _) _ = _ |- _ => idtac
       | _ => apply observe_inv in Hperform as [r Hrun]
       end.
  - inversion Hrun; subst. now left.
  - inversion Hrun; subst. now left.
  - inversion Hrun; subst. now left.
  - destruct (init_returns_flag env this) as (b & sent0 & Hrun0 & Htrue).
    unfold observe in Hperform.
    rewrite Hrun0 in Hperform. inversion Hperform; subst.
    cbn in Hinit'. subst b.
    destruct (Htrue eq_refl) as [Hold | (_ & v1 & v2 & _ & _ & Hdef & ->)].
    + now left.
    + right. exists true, v1, v2. split; [now left | exact Hdef].
  - apply login_effect in Hrun as [Hsame _]. left. congruence.
  - apply logout_effect in Hrun as [-> | ->]; now left.
  - apply getAddress_effect in Hrun as ->. now left.
  - inversion Hrun; subst. now left.
  - inversion Hrun; subst. now left.
  - apply signTransaction_effect in Hrun as ->. now left.
  - apply signTransactions_effect in Hrun as ->. now left.
  - apply signMessage_effect in Hrun as ->. now left.
  - inversion Hrun; subst. now left.
Qed.

(** In every session, with or without the setters, the flag is up only
    after a completed handshake. *)
Lemma initialized_after_handshake
    (allowed : Call -> bool) (this : MetamaskProvider) (session : list Observation) :
  reachable allowed this session ->
  initialized this = true ->
  handshake_done session.
Proof.
  induction 1 as [|this session env c returned this' sent Hreach IH Hallowed Hperform].
  - discriminate.
  - intros Hinit'.
    destruct (perform_initialized _ _ _ _ _ _ Hperform Hinit') as [Hold | Hnow].
    + apply handshake_done_mono. now apply IH.
    + now apply handshake_done_last.
Qed.

(** One call that is not a setter keeps [address_invariant]. *)
Lemma address_invariant_step
    (env : Env) (c : Call) (this this' : MetamaskProvider)
    (session : list Observation) (returned : bool) (sent : list Event) :
  not_a_setter c = true ->
  address_invariant this session ->
  perform env c this = (returned, this', sent) ->
  address_invariant this' (session ++ [Obs c returned sent]).
Proof.
  intros Hallowed Hinv Hperform.
  assert (Hkeep : this' = this -> address_invariant this' (session ++ [Obs c returned sent])).
  { intros -> Hconn. destruct (Hinv Hconn) as [Hinit Hrecv].
    split; [exact Hinit | now apply address_received_mono]. }
  destruct c; cbn [perform] in Hperform; try discriminate Hallowed.
  all: apply observe_inv in Hperform as [r Hrun].
  - apply Hkeep. now inversion Hrun.
  - (* init *)
    destruct (init_returns_flag env this) as (b & sent0 & Hrun0 & _).
    rewrite Hrun0 in Hrun. inversion Hrun; subst.
    intros Hconn. cbn in Hconn.
    destruct (Hinv Hconn) as [Hinit Hrecv].
    pose proof (init_cases env this) as Hcases.
    rewrite Hinit, andb_false_r in Hcases. rewrite Hcases in Hrun0.
    inversion Hrun0 as [[Hb Hthis Hsent]].
    split; [reflexivity | now apply address_received_mono].
  - (* login *)
    destruct (login_effect _ _ _ _ _ _ Hrun) as [Hflag [Hsame | (Hinit & [Hundef | Hin])]];
      intros Hconn; unfold connected in *.
    + rewrite Hsame in Hconn. destruct (Hinv Hconn) as [Hinit Hrecv].
      split; [congruence | now apply address_received_mono].
    + rewrite Hundef in Hconn. discriminate.
    + split; [congruence|].
      apply address_received_last.
      exists token, returned, sent, (address (account this')).
      repeat split; [now left | exact Hin | exact Hconn].
  - (* logout *)
    apply logout_effect in Hrun as [-> | ->]; [now apply Hkeep|].
    intros Hconn. discriminate Hconn.
  - apply Hkeep. now apply getAddress_effect in Hrun.
  - apply Hkeep. now inversion Hrun.
  - apply Hkeep. now inversion Hrun.
  - apply Hkeep. now apply signTransaction_effect in Hrun.
  - apply Hkeep. now apply signTransactions_effect in Hrun.
  - apply Hkeep. now apply signMessage_effect in Hrun.
  - apply Hkeep. now inversion Hrun.
Qed.

(** ** [init] *)

(** C1.  [init()] returns in every world and from every object, and the
    boolean it returns is the flag it leaves.  On a provider that is not
    yet initialized it returns false when the marker is missing or not
    identified, when [connectSnap] or [getSnap] rejects, and when
    [getSnap] resolves with [undefined].  It returns true only on a
    provider that already was initialized or after both steps resolved in
    this call; in a session that is only after some [init] saw both steps
    resolve. *)
Theorem init_never_throws (env : Env) (this : MetamaskProvider) :
  exists b sent,
    init env this = (Return b, with_initialized b this, sent) /\
    (initialized this = false ->
     isMetamaskInstalled env = false \/ handshake_fails env ->
     b = false) /\
    (b = true ->
     initialized this = true \/
     (isMetamaskInstalled env = true /\ handshake_succeeds env)) /\
    (forall session,
        reachable any_call this session ->
        b = true ->
        handshake_done (session ++ [Obs call_init true sent])).
Proof.
  destruct (init_returns_flag env this) as (b & sent & Hrun & Htrue).
  exists b, sent. split; [exact Hrun|]. split; [|split].
  - intros Hinit Hwhy.
    destruct b; [|reflexivity].
    destruct (Htrue eq_refl) as [Hold | (Hmm & v1 & v2 & Hc & Hg & Hdef & _)];
      [congruence|].
    destruct Hwhy as [Habsent | [(reason & Hrej) | [(reason & Hrej) | Hundef]]];
      try congruence.
    rewrite Hundef in Hg. inversion Hg; subst. discriminate.
  - intros Hb.
    destruct (Htrue Hb) as [Hold | (Hmm & v1 & v2 & Hc & Hg & Hdef & _)];
      [now left|].
    right. split; [exact Hmm|]. now exists v1, v2.
  - intros session Hreach Hb.
    destruct (Htrue Hb) as [Hold | (_ & v1 & v2 & _ & _ & Hdef & ->)].
    + apply handshake_done_mono.
      now apply initialized_after_handshake with (allowed := any_call) (this := this).
    + apply handshake_done_last.
      exists true, v1, v2. split; [now left | exact Hdef].
Qed.

(** C9.  Once [initialized] is true, [init()] sends nothing, leaves the
    object as it is and returns true, in every world. *)
Theorem init_idempotent (env : Env) (this : MetamaskProvider) :
  initialized this = true ->
  init env this = (Return true, this, []).
Proof.
  intros Hinit. pose proof (init_cases env this) as Hcases.
  rewrite Hinit, andb_false_r in Hcases. exact Hcases.
Qed.

(** ** The account and the flag *)

(** C2.  The fresh provider satisfies, and every method other than
    [setAddress] and [setAccount] preserves: [account.address] is
    non-empty only if [initialized] is true and some [login] of the
    session was answered a non-empty address by the wallet.  Hence it
    holds after every session without the two setters. *)
Theorem address_invariant_kept :
  address_invariant new_MetamaskProvider [] /\
  (forall env c this session returned this' sent,
      not_a_setter c = true ->
      address_invariant this session ->
      perform env c this = (returned, this', sent) ->
      address_invariant this' (session ++ [Obs c returned sent])) /\
  (forall this session,
      reachable not_a_setter this session -> address_invariant this session).
Proof.
  assert (Hnew : address_invariant new_MetamaskProvider []) by (intros H; discriminate H).
  split; [exact Hnew|]. split.
  - intros env c this session returned this' sent.
    apply address_invariant_step.
  - induction 1 as [|this session env c returned this' sent Hreach IH Hallowed Hperform].
    + exact Hnew.
    + eapply address_invariant_step; eassumption.
Qed.

(** ** Calls before a successful [init] *)

(** C3.  While [initialized] is false, [login], [logout] and [getAddress]
    each throw the error of kind NotInitialized, send no RPC and leave the
    object as it was. *)
Theorem uninitialized_calls_fail
    (env : Env) (token : option string) (this : MetamaskProvider) :
  initialized this = false ->
  (exists e, login env token this = (Throw e, this, []) /\ is_NotInitialized e = true) /\
  (exists e, logout this = (Throw e, this, []) /\ is_NotInitialized e = true) /\
  (exists e, getAddress this = (Throw e, this, []) /\ is_NotInitialized e = true).
Proof.
  intros Hinit. repeat split.
  - exists (JsError (concat_optional not_initialised_msg token)). split.
    + unfold login. step_method. now rewrite Hinit.
    + apply not_initialised_kind.
  - exists (JsError not_initialised_msg). split.
    + unfold logout. step_method. now rewrite Hinit.
    + apply prefix_refl.
  - exists (JsError not_initialised_msg). split.
    + unfold getAddress. step_method. now rewrite Hinit.
    + apply prefix_refl.
Qed.

(** ** [login] and [logout] *)

(** C10.  On an initialized provider, when the address RPC resolves with
    [a] and the token-signing RPC that follows rejects, [login] throws the
    rejection as it came, and the object it leaves has [account.address]
    set to [a] with name and signature as before the call. *)
Theorem login_with_token_not_atomic
    (env : Env) (eth : Ethereum) (t : string) (a reason : JsVal)
    (this : MetamaskProvider) :
  initialized this = true ->
  ethereum env = Some eth ->
  t <> "" ->
  request eth (wallet_invokeSnap defaultSnapOrigin mvx_getAddress) = Resolved a ->
  request eth (wallet_invokeSnap defaultSnapOrigin (mvx_signAuthToken t)) = Rejected reason ->
  login env (Some t) this
  = (Throw (Rejection reason),
     with_account (with_address a (account this)) this,
     [CallRequest (wallet_invokeSnap defaultSnapOrigin mvx_getAddress) (Resolved a);
      CallRequest (wallet_invokeSnap defaultSnapOrigin (mvx_signAuthToken t))
                  (Rejected reason)]) /\
  address (account (with_account (with_address a (account this)) this)) = a /\
  signature (account (with_account (with_address a (account this)) this))
  = signature (account this).
Proof.
  intros Hinit Heth Ht Haddr Hsign. repeat split.
  unfold login, invokeSnap. step_method.
  rewrite Hinit, Heth. cbn. rewrite Haddr. cbn.
  destruct (String.eqb_spec t "") as [->|_]; [now elim Ht|]. cbn.
  now rewrite Hsign.
Qed.

(** C8.  On an initialized provider [logout()] returns true and leaves the
    empty account (address [''], no name, no signature), without any RPC;
    on the object it leaves, [isConnected()] is false and [getAddress()]
    is ['']. *)
Theorem logout_resets_account (this : MetamaskProvider) :
  initialized this = true ->
  let after := with_account empty_account this in
  logout this = (Return true, after, []) /\
  account after = {| address := JStr ""; name := None; signature := None |} /\
  isConnected after = (Return false, after, []) /\
  getAddress after = (Return (JStr ""), after, []).
Proof.
  intros Hinit after. repeat split.
  - unfold logout. step_method. now rewrite Hinit.
  - unfold getAddress. step_method. now rewrite Hinit.
Qed.

(** ** [signTransactions] and [signTransaction] *)

(** C4.  Whatever the transactions and the world: an error thrown by
    [signTransactions] is [ErrTransactionCancelled] and nothing else, and
    each failing step ends that way: a transaction that does not
    serialise, a rejected RPC, a response that is not an array or holds an
    element that does not parse back into a transaction, and the missing
    marker.  The object is left as it was. *)
Theorem signTransactions_failure_is_cancelled
    (env : Env) (txs : list Transaction) (this : MetamaskProvider) :
  (forall e this' sent,
      signTransactions env txs this = (Throw e, this', sent) ->
      e = ErrTransactionCancelled /\ this' = this) /\
  (forall e,
      map_result toPlainObject txs = Throw e ->
      signTransactions env txs this = (Throw ErrTransactionCancelled, this, [])) /\
  (forall eth plain reason,
      ethereum env = Some eth ->
      map_result toPlainObject txs = Return plain ->
      request eth (wallet_invokeSnap defaultSnapOrigin (mvx_signTransactions plain))
      = Rejected reason ->
      signTransactions env txs this
      = (Throw ErrTransactionCancelled, this,
         [CallRequest (wallet_invokeSnap defaultSnapOrigin (mvx_signTransactions plain))
                      (Rejected reason)])) /\
  (forall eth plain v e,
      ethereum env = Some eth ->
      map_result toPlainObject txs = Return plain ->
      request eth (wallet_invokeSnap defaultSnapOrigin (mvx_signTransactions plain))
      = Resolved v ->
      js_map parse_signed v = Throw e ->
      signTransactions env txs this
      = (Throw ErrTransactionCancelled, this,
         [CallRequest (wallet_invokeSnap defaultSnapOrigin (mvx_signTransactions plain))
                      (Resolved v)])) /\
  (ethereum env = None ->
   signTransactions env txs this = (Throw ErrTransactionCancelled, this, [])).
Proof.
  pose proof (signTransactions_cases env txs this) as Hcases.
  repeat split.
  - destruct (map_result toPlainObject txs) as [plain|e0]; cbv zeta in Hcases.
    + destruct (ethereum env) as [eth|].
      * destruct (request eth _) as [v|reason].
        -- destruct (js_map parse_signed v); congruence.
        -- congruence.
      * congruence.
    + congruence.
  - destruct (map_result toPlainObject txs) as [plain|e0]; cbv zeta in Hcases.
    + destruct (ethereum env) as [eth|].
      * destruct (request eth _) as [v|reason].
        -- destruct (js_map parse_signed v); congruence.
        -- congruence.
      * congruence.
    + congruence.
  - intros e He. now rewrite He in Hcases.
  - intros eth plain reason Heth Hplain Hreq.
    rewrite Hplain in Hcases. cbv zeta in Hcases.
    rewrite Heth, Hreq in Hcases. exact Hcases.
  - intros eth plain v e Heth Hplain Hreq Hparse.
    rewrite Hplain in Hcases. cbv zeta in Hcases.
    rewrite Heth, Hreq, Hparse in Hcases. exact Hcases.
  - intros Heth. rewrite Heth in Hcases.
    destruct (map_result toPlainObject txs); exact Hcases.
Qed.

(** C5.  Whatever [signTransactions] is bound to: when the batch call on
    [[tx]] returns a list, [signTransaction(tx)] throws
    [ErrCannotSignSingleTransaction] if the list does not have exactly one
    element, and returns that very element if it has. *)
Theorem signTransaction_single
    (batch : list Transaction -> M (list Transaction)) (tx : Transaction)
    (this this' : MetamaskProvider) (signed : list Transaction) (sent : list Event) :
  batch [tx] this = (Return signed, this', sent) ->
  (List.length signed <> 1 ->
   signTransaction_with batch tx this
   = (Throw ErrCannotSignSingleTransaction, this', sent)) /\
  (forall tx', signed = [tx'] ->
   signTransaction_with batch tx this = (Return (Some tx'), this', sent)).
Proof.
  intros Hbatch. unfold signTransaction_with. step_method. rewrite Hbatch.
  split.
  - intros Hlen. destruct (Nat.eqb_spec (List.length signed) 1) as [E|_];
      [now elim Hlen|]. cbn. now rewrite app_nil_r.
  - intros tx' ->. cbn. now rewrite app_nil_r.
Qed.

(** A failure of the batch call goes through [signTransaction] as it is. *)
Lemma signTransaction_propagates
    (batch : list Transaction -> M (list Transaction)) (tx : Transaction)
    (this this' : MetamaskProvider) (e : Thrown) (sent : list Event) :
  batch [tx] this = (Throw e, this', sent) ->
  signTransaction_with batch tx this = (Throw e, this', sent).
Proof.
  intros Hbatch. unfold signTransaction_with. step_method. now rewrite Hbatch.
Qed.

(** ** [signMessage] *)

(** C6.  With the empty string for [account.address], [signMessage]
    throws [ErrAccountNotConnected] in every world, marker present or
    not, and sends no RPC. *)
Theorem signMessage_needs_address
    (env : Env) (messageToSign : Message) (this : MetamaskProvider) :
  address (account this) = JStr "" ->
  signMessage env messageToSign this = (Throw ErrAccountNotConnected, this, []).
Proof.
  intros Haddr. unfold signMessage, ensureConnected. step_method.
  now rewrite Haddr.
Qed.

(** X18.  [signMessage] throws [ErrAccountNotConnected], sends nothing
    and leaves the object as it was whenever the address is falsy (empty
    or [undefined]) or the extension is not installed (no marker, or a
    marker without the identity flag). *)
Lemma signMessage_not_connected
    (env : Env) (messageToSign : Message) (this : MetamaskProvider) :
  connected this = false \/ isMetamaskInstalled env = false ->
  signMessage env messageToSign this = (Throw ErrAccountNotConnected, this, []).
Proof.
  intros H. unfold signMessage, ensureConnected. step_method.
  unfold connected in H.
  destruct H as [-> | ->]; cbn; [reflexivity|].
  now rewrite orb_true_r.
Qed.

(** C7.  On a connected provider (non-empty address, marker present and
    identified) and for a signing RPC that resolves with the string [h]:
    [signMessage] returns a new message with the data of the argument,
    the address of the argument if it has one and else the session
    address as decoded by [Address.fromBech32], the signer ['metamask'],
    the version of the argument, and the bytes [Buffer.from(h, 'hex')]
    for signature; one RPC is sent and the object is left as it was.
    When the argument has no address and the session address does not
    decode, the decoding error is thrown instead, after the RPC. *)
Theorem signMessage_builds_message
    (env : Env) (eth : Ethereum) (messageToSign : Message) (h : string)
    (this : MetamaskProvider) :
  connected this = true ->
  ethereum env = Some eth ->
  truthy (isMetaMask eth) = true ->
  let c := wallet_invokeSnap defaultSnapOrigin
             (mvx_signMessage (bufferToString (msg_data messageToSign))) in
  request eth c = Resolved (JStr h) ->
  is_hex h = true ->
  (forall addr,
      match msg_address messageToSign with
      | Some own => addr = own
      | None => fromBech32 (address (account this)) = Return addr
      end ->
      signMessage env messageToSign this
      = (Return {| msg_data := msg_data messageToSign;
                   msg_address := Some addr;
                   msg_signer := "metamask";
                   msg_version := msg_version messageToSign;
                   msg_signature := Some (hex_decode h) |},
         this, [CallRequest c (Resolved (JStr h))])) /\
  (forall e,
      msg_address messageToSign = None ->
      fromBech32 (address (account this)) = Throw e ->
      signMessage env messageToSign this
      = (Throw e, this, [CallRequest c (Resolved (JStr h))])).
Proof.
  intros Hconn Heth Hflag c Hreq Hhex. unfold connected in Hconn.
  split.
  - intros addr Haddr.
    unfold signMessage, ensureConnected, invokeSnap, isMetamaskInstalled.
    step_method. rewrite Heth, Hflag, Hconn. cbn.
    fold c. rewrite Hreq. cbn.
    destruct (msg_address messageToSign) as [own|]; cbn.
    + rewrite Hhex. now subst addr.
    + rewrite Haddr. cbn. now rewrite Hhex.
  - intros e Hnone Hthrow.
    unfold signMessage, ensureConnected, invokeSnap, isMetamaskInstalled.
    step_method. rewrite Heth, Hflag, Hconn. cbn.
    fold c. rewrite Hreq. cbn.
    rewrite Hnone. cbn. now rewrite Hthrow.
Qed.
(** ** More on [init] *)

(** X1.  Without the marker, or with a marker whose [isMetaMask] is
    falsy, [init()] calls neither [connectSnap] nor [getSnap], leaves the
    object as it is and returns the flag it found. *)
Theorem init_without_extension (env : Env) (this : MetamaskProvider) :
  ethereum env = None \/
  (exists eth, ethereum env = Some eth /\ truthy (isMetaMask eth) = false) ->
  isMetamaskInstalled env = false /\
  init env this = (Return (initialized this), this, []).
Proof.
  intros Hwhy.
  assert (Hno : isMetamaskInstalled env = false).
  { unfold isMetamaskInstalled.
    destruct Hwhy as [-> | (eth & -> & Hflag)]; [reflexivity | exact Hflag]. }
  split; [exact Hno|].
  pose proof (init_cases env this) as Hcases.
  now rewrite Hno in Hcases.
Qed.


(** ** More on [login] *)

(** X3.  On an initialized provider whose address RPC resolves with [a]:
    without a token (or with the empty one) [login] sends that one request
    and returns the account with [address] set to [a], name and signature
    as before; with a non-empty token whose signing RPC resolves with [s]
    it sends the two requests in that order and returns the account with
    [address] [a] and [signature] [s].  The flag of the marker is not
    looked at. *)
Theorem login_stores_answers
    (env : Env) (eth : Ethereum) (a : JsVal) (this : MetamaskProvider) :
  initialized this = true ->
  ethereum env = Some eth ->
  request eth (snap_call mvx_getAddress) = Resolved a ->
  let acc := with_address a (account this) in
  (forall token,
      token = None \/ token = Some "" ->
      login env token this
      = (Return acc, with_account acc this,
         [CallRequest (snap_call mvx_getAddress) (Resolved a)])) /\
  (forall t s,
      t <> "" ->
      request eth (snap_call (mvx_signAuthToken t)) = Resolved s ->
      login env (Some t) this
      = (Return (with_signature s acc), with_account (with_signature s acc) this,
         [CallRequest (snap_call mvx_getAddress) (Resolved a);
          CallRequest (snap_call (mvx_signAuthToken t)) (Resolved s)])).
Proof.
  intros Hinit Heth Haddr acc. unfold snap_call in *. split.
  - intros token Htoken. unfold login, invokeSnap. step_method.
    rewrite Hinit, Heth. cbn. rewrite Haddr. cbn.
    destruct Htoken as [-> | ->]; reflexivity.
  - intros t s Ht Hsign. unfold login, invokeSnap. step_method.
    rewrite Hinit, Heth. cbn. rewrite Haddr. cbn.
    destruct (String.eqb_spec t "") as [->|_]; [now elim Ht|]. cbn.
    now rewrite Hsign.
Qed.

(** X4.  When the address RPC rejects, [login] throws the rejection as it
    came, the token request is never sent and the object is left exactly
    as it was. *)
Theorem login_address_rejected
    (env : Env) (eth : Ethereum) (token : option string) (reason : JsVal)
    (this : MetamaskProvider) :
  initialized this = true ->
  ethereum env = Some eth ->
  request eth (snap_call mvx_getAddress) = Rejected reason ->
  login env token this
  = (Throw (Rejection reason), this,
     [CallRequest (snap_call mvx_getAddress) (Rejected reason)]).
Proof.
  intros Hinit Heth Haddr. unfold snap_call in *.
  unfold login, invokeSnap. step_method.
  rewrite Hinit, Heth. cbn. now rewrite Haddr.
Qed.

(** X5.  On an initialized provider in a world where the marker is gone,
    [login] sends nothing and still returns: the address is overwritten
    with [undefined] (and so is the signature when a non-empty token was
    given), so that a provider that was connected is not any more. *)
Theorem login_without_marker
    (env : Env) (token : option string) (this : MetamaskProvider) :
  initialized this = true ->
  ethereum env = None ->
  exists acc,
    login env token this = (Return acc, with_account acc this, []) /\
    address acc = JUndefined /\
    name acc = name (account this) /\
    (signature acc = match token with
                     | Some t => if truthy (JStr t) then Some JUndefined
                                 else signature (account this)
                     | None => signature (account this)
                     end) /\
    connected (with_account acc this) = false.
Proof.
  intros Hinit Heth. unfold login, invokeSnap. step_method.
  rewrite Hinit, Heth. cbn.
  destruct token as [t|]; cbn.
  - destruct (negb (t =? "")%string); cbn; eexists; repeat split.
  - eexists; repeat split.
Qed.

(** X6.  Whenever [login] returns, in whatever world: the account it
    returns is the one the provider now holds, the provider is
    initialized, [getAddress()] returns the address of that account and
    [isConnected()] tells whether that address is non-empty. *)
Theorem login_returns_stored_account
    (env : Env) (token : option string) (this this' : MetamaskProvider)
    (acc : IMetamaskWalletAccount) (sent : list Event) :
  login env token this = (Return acc, this', sent) ->
  account this' = acc /\
  initialized this' = true /\
  getAddress this' = (Return (address acc), this', []) /\
  isConnected this' = (Return (truthy (address acc)), this', []).
Proof.
  intros Hrun.
  assert (Hflag : initialized this' = true /\ account this' = acc).
  { revert Hrun. unfold login, invokeSnap. step_method.
    destruct (initialized this) eqn:Hinit; cbn; [|discriminate].
    destruct (ethereum env) as [eth|]; cbn.
    - destruct (request eth _) as [a|reason]; cbn; [|discriminate].
      destruct token as [t|]; cbn.
      + destruct (negb (t =? "")%string); cbn.
        * destruct (request eth _) as [s|reason]; cbn; [|discriminate].
          intros H; inversion H; subst. now split.
        * intros H; inversion H; subst. now split.
      + intros H; inversion H; subst. now split.
    - destruct token as [t|]; cbn.
      + destruct (negb (t =? "")%string); cbn;
          intros H; inversion H; subst; now split.
      + intros H; inversion H; subst. now split. }
  destruct Hflag as [Hinit' Hacc]. repeat split; try assumption.
  - unfold getAddress. step_method. rewrite Hinit'. cbn. now rewrite Hacc.
  - unfold isConnected. step_method. now rewrite Hacc.
Qed.

(** ** More on the transaction signers *)

Lemma map_result_Forall2 {A B} (f : A -> Result B) (xs : list A) (ys : list B) :
  map_result f xs = Return ys <-> Forall2 (fun x y => f x = Return y) xs ys.
Proof.
  revert ys. induction xs as [|x rest IH]; intros ys; cbn.
  - split.
    + intros H; inversion H. constructor.
    + intros H; now inversion H.
  - split.
    + destruct (f x) as [y|e] eqn:Hx; [|discriminate].
      destruct (map_result f rest) as [ys'|e] eqn:Hrest; [|discriminate].
      intros H; inversion H; subst. constructor; [exact Hx|]. now apply IH.
    + intros H; inversion H as [|x0 y xs0 ys' Hx Hrest]; subst.
      rewrite Hx. apply IH in Hrest. now rewrite Hrest.
Qed.

Lemma js_map_returns {B} (f : JsVal -> Result B) (v : JsVal) (ys : list B) :
  js_map f v = Return ys <-> exists items, v = JArr items /\ map_result f items = Return ys.
Proof.
  split.
  - destruct v; cbn; try discriminate. intros H. now exists items.
  - intros (items & -> & H). exact H.
Qed.

(** X7.  [signTransactions] returns a list exactly when every
    transaction serialises, the marker is there, the one request carrying
    the whole batch resolves with an array, and every element of that
    array parses; the list then holds the parsed elements of the response
    in order, one per element of the response, however many transactions
    were sent.  The object is left as it was. *)
Theorem signTransactions_returns_iff
    (env : Env) (txs signed : list Transaction)
    (this this' : MetamaskProvider) (sent : list Event) :
  signTransactions env txs this = (Return signed, this', sent) <->
  this' = this /\
  exists eth plain items,
    ethereum env = Some eth /\
    Forall2 (fun tx p => toPlainObject tx = Return p) txs plain /\
    request eth (snap_call (mvx_signTransactions plain)) = Resolved (JArr items) /\
    Forall2 (fun item tx => parse_signed item = Return tx) items signed /\
    sent = [CallRequest (snap_call (mvx_signTransactions plain)) (Resolved (JArr items))].
Proof.
  pose proof (signTransactions_cases env txs this) as Hcases.
  unfold snap_call. split.
  - intros Hrun.
    destruct (map_result toPlainObject txs) as [plain|e] eqn:Hplain;
      cbv zeta in Hcases; [|congruence].
    destruct (ethereum env) as [eth|]; [|congruence].
    destruct (request eth _) as [v|reason] eqn:Hreq; [|congruence].
    destruct (js_map parse_signed v) as [signed'|e] eqn:Hparse; [|congruence].
    rewrite Hcases in Hrun. inversion Hrun; subst.
    apply js_map_returns in Hparse as (items & -> & Hitems).
    split; [reflexivity|]. exists eth, plain, items.
    repeat split; try assumption.
    + now apply map_result_Forall2.
    + now apply map_result_Forall2.
  - intros (-> & eth & plain & items & Heth & Hplain & Hreq & Hitems & ->).
    apply map_result_Forall2 in Hplain. apply map_result_Forall2 in Hitems.
    rewrite Hplain in Hcases. cbv zeta in Hcases.
    rewrite Heth, Hreq in Hcases. cbn [js_map] in Hcases.
    now rewrite Hitems in Hcases.
Qed.

Lemma signTransactions_same_everywhere (env : Env) (txs : list Transaction) :
  exists r sent, forall this, signTransactions env txs this = (r, this, sent).
Proof.
  destruct (map_result toPlainObject txs) as [plain|e] eqn:Hplain.
  - destruct (ethereum env) as [eth|] eqn:Heth.
    + destruct (request eth (wallet_invokeSnap defaultSnapOrigin (mvx_signTransactions plain)))
        as [v|reason] eqn:Hreq.
      * destruct (js_map parse_signed v) as [signed|e] eqn:Hparse;
          eexists _, _; intros this;
          pose proof (signTransactions_cases env txs this) as Hcases;
          rewrite Hplain in Hcases; cbv zeta in Hcases;
          rewrite Heth, Hreq, Hparse in Hcases; exact Hcases.
      * eexists _, _; intros this.
        pose proof (signTransactions_cases env txs this) as Hcases.
        rewrite Hplain in Hcases. cbv zeta in Hcases.
        rewrite Heth, Hreq in Hcases. exact Hcases.
    + eexists _, _; intros this.
      pose proof (signTransactions_cases env txs this) as Hcases.
      rewrite Hplain in Hcases. cbv zeta in Hcases.
      rewrite Heth in Hcases. exact Hcases.
  - eexists _, _; intros this.
    pose proof (signTransactions_cases env txs this) as Hcases.
    rewrite Hplain in Hcases. exact Hcases.
Qed.

(** [signTransaction] in terms of what the batch call gave. *)
Lemma signTransaction_from_batch
    (env : Env) (tx : Transaction) (this this' : MetamaskProvider)
    (r : Result (list Transaction)) (sent : list Event) :
  signTransactions env [tx] this = (r, this', sent) ->
  signTransaction env tx this
  = (match r with
     | Return [one] => Return (Some one)
     | Return _ => Throw ErrCannotSignSingleTransaction
     | Throw e => Throw e
     end, this', sent).
Proof.
  intros Hbatch. unfold signTransaction, signTransaction_with. step_method.
  rewrite Hbatch. destruct r as [[|one [|two rest]]|e]; cbn;
    try rewrite app_nil_r; reflexivity.
Qed.

(** X8.  Neither signer of transactions looks at the provider: in a given
    world and for given transactions, result and requests are the same
    from every object, initialized or not, logged in or not, and the
    object is returned untouched. *)
Theorem signing_ignores_provider (env : Env) :
  (forall txs, exists r sent,
      forall this, signTransactions env txs this = (r, this, sent)) /\
  (forall tx, exists r sent,
      forall this, signTransaction env tx this = (r, this, sent)).
Proof.
  split.
  - intros txs. apply signTransactions_same_everywhere.
  - intros tx.
    destruct (signTransactions_same_everywhere env [tx]) as (r & sent & Hbatch).
    eexists _, sent. intros this.
    exact (signTransaction_from_batch env tx this this r sent (Hbatch this)).
Qed.

(** X9.  Whatever [signTransaction] does, it leaves the object as it
    was and sends at most one request; when it throws, the error is
    [ErrTransactionCancelled] or [ErrCannotSignSingleTransaction], and when
    it returns, it returns a transaction, never [undefined]. *)
Theorem signTransaction_outcomes
    (env : Env) (tx : Transaction) (this this' : MetamaskProvider)
    (r : Result (option Transaction)) (sent : list Event) :
  signTransaction env tx this = (r, this', sent) ->
  this' = this /\
  List.length sent <= 1 /\
  match r with
  | Return o => exists signed, o = Some signed
  | Throw e => e = ErrTransactionCancelled \/ e = ErrCannotSignSingleTransaction
  end.
Proof.
  intros Hrun.
  destruct (signTransactions env [tx] this) as [[r0 this0] sent0] eqn:Hbatch.
  rewrite (signTransaction_from_batch env tx this this0 r0 sent0 Hbatch) in Hrun.
  inversion Hrun; subst; clear Hrun.
  pose proof (signTransactions_cases env [tx] this) as Hcases.
  assert (Hshape : this' = this /\ List.length sent <= 1 /\
                   forall e, r0 = Throw e -> e = ErrTransactionCancelled).
  { destruct (map_result toPlainObject [tx]) as [plain|e0]; cbv zeta in Hcases.
    - destruct (ethereum env) as [eth|].
      + destruct (request eth _) as [v|reason].
        * destruct (js_map parse_signed v);
            rewrite Hcases in Hbatch; inversion Hbatch; subst;
            repeat split; cbn; try lia; congruence.
        * rewrite Hcases in Hbatch; inversion Hbatch; subst.
          repeat split; cbn; try lia; congruence.
      + rewrite Hcases in Hbatch; inversion Hbatch; subst.
        repeat split; cbn; try lia; congruence.
    - rewrite Hcases in Hbatch; inversion Hbatch; subst.
      repeat split; cbn; try lia; congruence. }
  destruct Hshape as (Hthis & Hlen & Hthrow).
  split; [exact Hthis|]. split; [exact Hlen|].
  destruct r0 as [[|one [|two rest]]|e].
  - now right.
  - now exists one.
  - now right.
  - left. now apply Hthrow.
Qed.

(** ** More on [signMessage] *)

(** X10.  On a connected provider, when the signing RPC rejects,
    [signMessage] throws the rejection as it came, after that one request,
    and leaves the object as it was. *)
Theorem signMessage_rejection_propagates
    (env : Env) (eth : Ethereum) (messageToSign : Message) (reason : JsVal)
    (this : MetamaskProvider) :
  connected this = true ->
  ethereum env = Some eth ->
  truthy (isMetaMask eth) = true ->
  let c := snap_call (mvx_signMessage (bufferToString (msg_data messageToSign))) in
  request eth c = Rejected reason ->
  signMessage env messageToSign this
  = (Throw (Rejection reason), this, [CallRequest c (Rejected reason)]).
Proof.
  intros Hconn Heth Hflag c Hreq. unfold connected in Hconn.
  unfold signMessage, ensureConnected, invokeSnap, isMetamaskInstalled.
  step_method. rewrite Heth, Hflag, Hconn. cbn.
  unfold c, snap_call in Hreq. now rewrite Hreq.
Qed.

(** X11.  What the wallet signed comes back byte for byte: when the
    signing RPC resolves with the lower-case hexadecimal text of the bytes
    [sig] and the address of the message can be resolved, the message
    [signMessage] returns has [sig] for signature and the data of the
    argument. *)
Theorem signMessage_signature_round_trip
    (env : Env) (eth : Ethereum) (messageToSign : Message) (sig : Bytes)
    (addr : Address) (this : MetamaskProvider) :
  connected this = true ->
  ethereum env = Some eth ->
  truthy (isMetaMask eth) = true ->
  request eth (snap_call (mvx_signMessage (bufferToString (msg_data messageToSign))))
  = Resolved (JStr (hex_encode sig)) ->
  match msg_address messageToSign with
  | Some own => addr = own
  | None => fromBech32 (address (account this)) = Return addr
  end ->
  exists signedMessage sent,
    signMessage env messageToSign this = (Return signedMessage, this, sent) /\
    msg_signature signedMessage = Some sig /\
    msg_data signedMessage = msg_data messageToSign /\
    msg_address signedMessage = Some addr.
Proof.
  intros Hconn Heth Hflag Hreq Haddr. unfold connected in Hconn.
  unfold signMessage, ensureConnected, invokeSnap, isMetamaskInstalled.
  step_method. rewrite Heth, Hflag, Hconn. cbn.
  unfold snap_call in Hreq. rewrite Hreq. cbn.
  rewrite is_hex_encode, hex_decode_encode.
  destruct (msg_address messageToSign) as [own|]; cbn.
  - subst addr. eexists _, _. repeat split.
  - rewrite Haddr. cbn. eexists _, _. repeat split.
Qed.

(** ** What the methods send and what they keep *)

Lemma init_sends (env : Env) (this this' : MetamaskProvider)
    (r : Result bool) (sent : list Event) :
  init env this = (r, this', sent) ->
  Forall (may_send env call_init) sent /\ List.length sent <= 2.
Proof.
  pose proof (init_cases env this) as Hcases. intros Hrun.
  destruct (isMetamaskInstalled env && negb (initialized this)).
  - destruct (connectSnap env) as [v1|reason] eqn:Hc.
    + destruct (getSnap env) as [v2|reason] eqn:Hg;
        rewrite Hcases in Hrun; inversion Hrun; subst;
        (split; [|cbn; lia]); repeat (apply Forall_cons || apply Forall_nil);
        cbn [may_send]; rewrite ?Hc, ?Hg; auto.
    + rewrite Hcases in Hrun; inversion Hrun; subst.
      split; [|cbn; lia]. repeat (apply Forall_cons || apply Forall_nil).
      cbn [may_send]. rewrite Hc. auto.
  - rewrite Hcases in Hrun; inversion Hrun; subst. split; [constructor | cbn; lia].
Qed.

Lemma login_sends (env : Env) (token : option string)
    (this this' : MetamaskProvider) (r : Result IMetamaskWalletAccount)
    (sent : list Event) :
  login env token this = (r, this', sent) ->
  Forall (may_send env (call_login token)) sent /\ List.length sent <= 2.
Proof.
  unfold login, invokeSnap. step_method.
  destruct (initialized this); cbn.
  2:{ intros H; inversion H; subst. split; [constructor | cbn; lia]. }
  assert (Haddr : forall o,
             may_send env (call_login token)
                      (CallRequest (wallet_invokeSnap defaultSnapOrigin mvx_getAddress) o)).
  { intros o. left. now exists o. }
  destruct (ethereum env) as [eth|]; cbn.
  - destruct (request eth (wallet_invokeSnap defaultSnapOrigin mvx_getAddress))
      as [a|reason]; cbn.
    2:{ intros H; inversion H; subst. split; [|cbn; lia].
        repeat (apply Forall_cons || apply Forall_nil). apply Haddr. }
    destruct token as [t|]; cbn.
    + destruct (String.eqb_spec t "") as [->|Ht]; cbn.
      * intros H; inversion H; subst. split; [|cbn; lia].
        repeat (apply Forall_cons || apply Forall_nil). apply Haddr.
      * assert (Htok : forall o,
                   may_send env (call_login (Some t))
                     (CallRequest
                        (wallet_invokeSnap defaultSnapOrigin (mvx_signAuthToken t)) o)).
        { intros o. right. now exists t, o. }
        destruct (request eth (wallet_invokeSnap defaultSnapOrigin (mvx_signAuthToken t)));
          cbn; intros H; inversion H; subst; (split; [|cbn; lia]);
          repeat (apply Forall_cons || apply Forall_nil); auto.
    + intros H; inversion H; subst. split; [|cbn; lia].
      repeat (apply Forall_cons || apply Forall_nil). apply Haddr.
  - destruct token as [t|]; cbn.
    + destruct (negb (t =? "")%string); cbn;
        intros H; inversion H; subst; (split; [constructor | cbn; lia]).
    + intros H; inversion H; subst. split; [constructor | cbn; lia].
Qed.

Lemma signTransactions_sends (env : Env) (txs : list Transaction)
    (this this' : MetamaskProvider) (r : Result (list Transaction))
    (sent : list Event) :
  signTransactions env txs this = (r, this', sent) ->
  Forall (may_send env (call_signTransactions txs)) sent /\ List.length sent <= 1.
Proof.
  pose proof (signTransactions_cases env txs this) as Hcases. intros Hrun.
  destruct (map_result toPlainObject txs) as [plain|e] eqn:Hplain;
    cbv zeta in Hcases.
  - assert (Hmay : forall o,
               may_send env (call_signTransactions txs)
                 (CallRequest
                    (wallet_invokeSnap defaultSnapOrigin (mvx_signTransactions plain)) o)).
    { intros o. exists plain, o. now split. }
    destruct (ethereum env) as [eth|].
    + destruct (request eth _) as [v|reason].
      * destruct (js_map parse_signed v);
          rewrite Hcases in Hrun; inversion Hrun; subst;
          (split; [|cbn; lia]); repeat (apply Forall_cons || apply Forall_nil); apply Hmay.
      * rewrite Hcases in Hrun; inversion Hrun; subst.
        split; [|cbn; lia]. repeat (apply Forall_cons || apply Forall_nil). apply Hmay.
    + rewrite Hcases in Hrun; inversion Hrun; subst. split; [constructor | cbn; lia].
  - rewrite Hcases in Hrun; inversion Hrun; subst. split; [constructor | cbn; lia].
Qed.

Lemma signMessage_sends (env : Env) (m : Message)
    (this this' : MetamaskProvider) (r : Result Message) (sent : list Event) :
  signMessage env m this = (r, this', sent) ->
  Forall (may_send env (call_signMessage m)) sent /\ List.length sent <= 1.
Proof.
  unfold signMessage, ensureConnected, invokeSnap. step_method.
  destruct (negb (truthy (address (account this))) || negb (isMetamaskInstalled env));
    cbn; [intros H; inversion H; subst; split; [constructor | cbn; lia]|].
  assert (Hmay : forall o,
             may_send env (call_signMessage m)
               (CallRequest
                  (wallet_invokeSnap defaultSnapOrigin
                     (mvx_signMessage (bufferToString (msg_data m)))) o)).
  { intros o. now exists o. }
  destruct (ethereum env) as [eth|]; cbn.
  - destruct (request eth _) as [v|reason]; cbn.
    2:{ intros H; inversion H; subst. split; [|cbn; lia].
        repeat (apply Forall_cons || apply Forall_nil). apply Hmay. }
    destruct (msg_address m) as [own|]; cbn.
    + destruct (Buffer_from_hex v); cbn; intros H; inversion H; subst;
        (split; [|cbn; lia]); repeat (apply Forall_cons || apply Forall_nil); apply Hmay.
    + destruct (fromBech32 (address (account this))); cbn.
      * destruct (Buffer_from_hex v); cbn; intros H; inversion H; subst;
          (split; [|cbn; lia]); repeat (apply Forall_cons || apply Forall_nil); apply Hmay.
      * intros H; inversion H; subst. split; [|cbn; lia].
        repeat (apply Forall_cons || apply Forall_nil). apply Hmay.
  - destruct (msg_address m) as [own|]; cbn.
    + destruct (Buffer_from_other JUndefined); cbn; intros H; inversion H; subst;
        (split; [constructor | cbn; lia]).
    + destruct (fromBech32 (address (account this))); cbn.
      * destruct (Buffer_from_other JUndefined); cbn; intros H; inversion H; subst;
          (split; [constructor | cbn; lia]).
      * intros H; inversion H; subst. split; [constructor | cbn; lia].
Qed.

Lemma perform_sends
    (env : Env) (c : Call) (this this' : MetamaskProvider)
    (returned : bool) (sent : list Event) :
  perform env c this = (returned, this', sent) ->
  Forall (may_send env c) sent /\ List.length sent <= 2.
Proof.
  intros Hperform.
  destruct c; cbn [perform] in Hperform;
    apply observe_inv in Hperform as [r Hrun].
  - inversion Hrun; subst. split; [constructor | cbn; lia].
  - inversion Hrun; subst. split; [constructor | cbn; lia].
  - inversion Hrun; subst. split; [constructor | cbn; lia].
  - now apply init_sends in Hrun.
  - now apply login_sends in Hrun.
  - revert Hrun. unfold logout. step_method.
    destruct (initialized this); cbn; intros H; inversion H; subst;
      (split; [constructor | cbn; lia]).
  - revert Hrun. unfold getAddress. step_method.
    destruct (initialized this); cbn; intros H; inversion H; subst;
      (split; [constructor | cbn; lia]).
  - inversion Hrun; subst. split; [constructor | cbn; lia].
  - inversion Hrun; subst. split; [constructor | cbn; lia].
  - destruct (signTransactions env [transaction] this) as [[r0 this0] sent0] eqn:Hbatch.
    rewrite (signTransaction_from_batch env transaction this this0 r0 sent0 Hbatch) in Hrun.
    inversion Hrun; subst.
    destruct (signTransactions_sends _ _ _ _ _ _ Hbatch) as [Hall Hlen].
    split; [exact Hall | lia].
  - destruct (signTransactions_sends _ _ _ _ _ _ Hrun) as [Hall Hlen].
    split; [exact Hall | lia].
  - destruct (signMessage_sends _ _ _ _ _ _ Hrun) as [Hall Hlen].
    split; [exact Hall | lia].
  - inversion Hrun; subst. split; [constructor | cbn; lia].
Qed.

(** X12.  One call sends at most two requests, and only those of its
    method: [init] the two handshake helpers; [login] the address request
    and, for a non-empty token only, the signature request with that very
    token; the transaction signers the batch of the serialised
    transactions; [signMessage] the text of the message; every other
    method nothing.  Every snap request goes to the configured snap. *)
Theorem calls_send_only_their_requests
    (env : Env) (c : Call) (this this' : MetamaskProvider)
    (returned : bool) (sent : list Event) :
  perform env c this = (returned, this', sent) ->
  Forall (may_send env c) sent /\
  List.length sent <= 2 /\
  Forall (fun e => forall snapId r o,
              e = CallRequest (wallet_invokeSnap snapId r) o ->
              snapId = defaultSnapOrigin) sent.
Proof.
  intros Hperform.
  destruct (perform_sends _ _ _ _ _ _ Hperform) as [Hall Hlen].
  split; [exact Hall|]. split; [exact Hlen|].
  eapply Forall_impl; [|exact Hall].
  intros e Hmay snapId r o ->.
  destruct c; cbn [may_send] in Hmay; unfold snap_call in Hmay.
  all: repeat match goal with
         | H : False |- _ => destruct H
         | H : _ \/ _ |- _ => destruct H
         | H : exists _, _ |- _ => destruct H
         | H : _ /\ _ |- _ => destruct H
         end; congruence.
Qed.

Lemma perform_keeps_flag
    (env : Env) (c : Call) (this this' : MetamaskProvider)
    (returned : bool) (sent : list Event) :
  initialized this = true ->
  perform env c this = (returned, this', sent) ->
  initialized this' = true /\ (c = call_init -> sent = []).
Proof.
  intros Hinit Hperform.
  destruct c; cbn [perform] in Hperform;
    apply observe_inv in Hperform as [r Hrun].
  all: try (split; [|discriminate]).
  - inversion Hrun; subst; exact Hinit.
  - inversion Hrun; subst; exact Hinit.
  - inversion Hrun; subst; exact Hinit.
  - pose proof (init_cases env this) as Hcases.
    rewrite Hinit, andb_false_r in Hcases. rewrite Hcases in Hrun.
    inversion Hrun; subst. now split.
  - apply login_effect in Hrun as [Hsame _]. congruence.
  - apply logout_effect in Hrun as [-> | ->]; assumption.
  - now apply getAddress_effect in Hrun as ->.
  - inversion Hrun; subst; exact Hinit.
  - inversion Hrun; subst; exact Hinit.
  - now apply signTransaction_effect in Hrun as ->.
  - now apply signTransactions_effect in Hrun as ->.
  - now apply signMessage_effect in Hrun as ->.
  - inversion Hrun; subst; exact Hinit.
Qed.

(** X13.  No method lowers the flag: from an initialized provider, every
    call of every method, in every world, leaves an initialized provider,
    and none of them calls [connectSnap] or [getSnap] again. *)
Theorem initialized_is_permanent
    (env : Env) (c : Call) (this this' : MetamaskProvider)
    (returned : bool) (sent : list Event) :
  initialized this = true ->
  perform env c this = (returned, this', sent) ->
  initialized this' = true /\
  Forall (fun e => is_handshake_event e = false) sent.
Proof.
  intros Hinit Hperform.
  destruct (perform_keeps_flag _ _ _ _ _ _ Hinit Hperform) as [Hflag Hnone].
  split; [exact Hflag|].
  destruct (perform_sends _ _ _ _ _ _ Hperform) as [Hall _].
  destruct c; try (rewrite (Hnone eq_refl); constructor).
  all: eapply Forall_impl; [|exact Hall]; intros e Hmay;
    cbn [may_send] in Hmay;
    repeat match goal with
      | H : False |- _ => destruct H
      | H : _ \/ _ |- _ => destruct H
      | H : exists _, _ |- _ => destruct H
      | H : _ /\ _ |- _ => destruct H
      end; subst; reflexivity.
Qed.

(** X14.  The accessors, the signers and [cancelAction] only read:
    whatever they return or throw, in whatever world, the object is the
    same afterwards. *)
Theorem reading_calls_keep_the_object
    (env : Env) (c : Call) (this this' : MetamaskProvider)
    (returned : bool) (sent : list Event) :
  reads_only c = true ->
  perform env c this = (returned, this', sent) ->
  this' = this.
Proof.
  intros Hreads Hperform.
  destruct c; try discriminate Hreads; cbn [perform] in Hperform;
    apply observe_inv in Hperform as [r Hrun].
  - now inversion Hrun.
  - now apply getAddress_effect in Hrun.
  - now inversion Hrun.
  - now inversion Hrun.
  - now apply signTransaction_effect in Hrun.
  - now apply signTransactions_effect in Hrun.
  - now apply signMessage_effect in Hrun.
  - now inversion Hrun.
Qed.

(** ** The setters *)

(** X15.  [setAddress(a)] writes the address and nothing else: name,
    signature and flag stay, [getAccount()] then shows the account with
    the new address and [isConnected()] is true exactly when [a] is not
    empty; [getAddress()] then returns [a] on an initialized provider and
    throws the error of kind NotInitialized on one that is not, connected
    or not.  [setAccount(acc)] replaces the whole account, which
    [getAccount()] then returns, and keeps the flag. *)
Theorem setters_then_getters
    (a : string) (acc : IMetamaskWalletAccount) (this : MetamaskProvider) :
  (exists this1,
      setAddress a this = (Return tt, this1, []) /\
      getAccount this1
      = (Return {| address := JStr a; name := name (account this);
                   signature := signature (account this) |}, this1, []) /\
      initialized this1 = initialized this /\
      isConnected this1 = (Return (negb (a =? "")%string), this1, []) /\
      (initialized this = true ->
       getAddress this1 = (Return (JStr a), this1, [])) /\
      (initialized this = false ->
       exists e, getAddress this1 = (Throw e, this1, []) /\
                 is_NotInitialized e = true)) /\
  (exists this2,
      setAccount acc this = (Return tt, this2, []) /\
      getAccount this2 = (Return acc, this2, []) /\
      initialized this2 = initialized this).
Proof.
  split.
  - eexists. split; [reflexivity|]. repeat split.
    + intros Hinit. unfold getAddress. step_method. now rewrite Hinit.
    + intros Hinit. exists (JsError not_initialised_msg). split.
      * unfold getAddress. step_method. now rewrite Hinit.
      * apply prefix_refl.
  - eexists. split; [reflexivity|]. split; reflexivity.
Qed.

(** X16.  The error [login] throws on a provider that is not initialized
    carries the token: its message is the fixed text followed by the token
    as given, and by ["undefined"] when there is none. *)
Theorem login_error_carries_token
    (env : Env) (token : option string) (this : MetamaskProvider) :
  initialized this = false ->
  login env token this
  = (Throw (JsError (not_initialised_msg
                     ++ match token with Some t => t | None => "undefined" end)%string),
     this, []).
Proof.
  intros Hinit. unfold login. step_method. rewrite Hinit. cbn.
  now destruct token.
Qed.

End Properties.

(** ** The singleton *)

(** X17.  Once the class is initialised, [getInstance()] returns the
    object the static initialiser built, and every further construction,
    however many are tried, throws the instantiation error and leaves that
    object in the slot. *)
Theorem singleton_is_unique (first : Singleton.Ref) (attempts : list Singleton.Ref) :
  let slot := Singleton.static_initializer first in
  Singleton.getInstance slot = Some first /\
  Singleton.construct_all attempts slot
  = (map (fun _ => Throw (JsError Singleton.instantiation_failed)) attempts, slot).
Proof.
  cbv zeta. split; [reflexivity|].
  induction attempts as [|this rest IH]; [reflexivity|].
  cbn [Singleton.construct_all map]. cbn in IH |- *. now rewrite IH.
Qed.

(** * The adapter at work: evaluated sessions *)

Import Worlds.

#[local] Existing Instance TestDouble.imports.

(** ** Scenarios of the specification *)

(** Marker present and identified, both steps resolve: [init()] is true. *)
Example scenario_init :
  init (world approving) new_MetamaskProvider
  = (Return true, initialized_provider, handshake_events).
Proof. reflexivity. Qed.

(** [login({token: "abc"})] then yields the address and the signature. *)
Example scenario_login :
  login (world approving) (Some "abc") initialized_provider
  = (Return {| address := JStr alice_bech32; name := None;
               signature := Some (JStr "deadbeef") |},
     {| account := {| address := JStr alice_bech32; name := None;
                      signature := Some (JStr "deadbeef") |};
        initialized := true |},
     [CallRequest address_call (Resolved (JStr alice_bech32));
      CallRequest (token_call "abc") (Resolved (JStr "deadbeef"))]).
Proof. reflexivity. Qed.

(** No marker, or a marker without the identity flag: not installed. *)
Example scenario_not_installed :
  isMetamaskInstalled world_without_extension = false /\
  isMetamaskInstalled
    {| ethereum := Some {| isMetaMask := JUndefined; request := fun _ => Resolved JNull |};
       connectSnap := Resolved JUndefined;
       getSnap := Resolved snap_metadata |} = false.
Proof. split; reflexivity. Qed.

Example scenario_cancelAction (this : MetamaskProvider) :
  cancelAction this = (Return false, this, []).
Proof. reflexivity. Qed.

(** ** Instances of the theorems *)

Lemma init_never_throws_witness :
  exists sent,
    init world_without_extension new_MetamaskProvider
    = (Return false, with_initialized false new_MetamaskProvider, sent).
Proof.
  destruct (init_never_throws world_without_extension new_MetamaskProvider)
    as (b & sent & Hrun & Hfalse & _).
  exists sent.
  rewrite (Hfalse eq_refl (or_introl eq_refl)) in Hrun.
  exact Hrun.
Defined.

Lemma init_idempotent_witness :
  init world_without_extension initialized_provider
  = (Return true, initialized_provider, []).
Proof. apply init_idempotent. reflexivity. Defined.

Lemma uninitialized_calls_fail_witness :
  (exists e, login (world approving) (Some "abc") new_MetamaskProvider
             = (Throw e, new_MetamaskProvider, []) /\ is_NotInitialized e = true) /\
  (exists e, logout new_MetamaskProvider
             = (Throw e, new_MetamaskProvider, []) /\ is_NotInitialized e = true) /\
  (exists e, getAddress new_MetamaskProvider
             = (Throw e, new_MetamaskProvider, []) /\ is_NotInitialized e = true).
Proof. apply uninitialized_calls_fail. reflexivity. Defined.

Lemma logout_resets_account_witness :
  logout (provider_of alice_bech32) = (Return true, initialized_provider, []).
Proof.
  destruct (logout_resets_account (provider_of alice_bech32) eq_refl) as [Hrun _].
  exact Hrun.
Defined.

Lemma login_with_token_not_atomic_witness :
  login (world declining) (Some "abc") initialized_provider
  = (Throw (Rejection user_rejected),
     provider_of alice_bech32,
     [CallRequest address_call (Resolved (JStr alice_bech32));
      CallRequest (token_call "abc") (Rejected user_rejected)]).
Proof.
  apply (@login_with_token_not_atomic _ (world declining) (extension declining)
           "abc" (JStr alice_bech32) user_rejected initialized_provider);
    [reflexivity | reflexivity | discriminate | reflexivity | reflexivity].
Defined.

Lemma signMessage_needs_address_witness :
  signMessage (world approving) hello initialized_provider
  = (Throw ErrAccountNotConnected, initialized_provider, []).
Proof. apply signMessage_needs_address. reflexivity. Defined.

Lemma signTransaction_single_witness :
  signTransaction (world forgetful) a_transaction initialized_provider
  = (Throw ErrCannotSignSingleTransaction, initialized_provider,
     [CallRequest (batch_call [a_transaction]) (Resolved (JArr []))]) /\
  signTransaction (world approving) a_transaction initialized_provider
  = (Return (Some (JObj [])), initialized_provider,
     [CallRequest (batch_call [a_transaction]) (Resolved (JArr [JStr "{}"]))]).
Proof.
  split.
  - refine (proj1 (signTransaction_single
                     (signTransactions (world forgetful))
                     a_transaction initialized_provider initialized_provider [] _ _) _).
    + reflexivity.
    + cbn. lia.
  - refine (proj2 (signTransaction_single
                     (signTransactions (world approving))
                     a_transaction initialized_provider initialized_provider
                     [JObj []] _ _) (JObj []) _);
      reflexivity.
Defined.

(** [signTransactions([])] over a rejecting RPC, the batch of one whose
    answer does not parse, and the batch of two answered by a string. *)
Lemma signTransactions_failure_is_cancelled_witness :
  signTransactions (world declining) [] initialized_provider
  = (Throw ErrTransactionCancelled, initialized_provider,
     [CallRequest (batch_call []) (Rejected user_rejected)]) /\
  signTransactions (world confused) [a_transaction] initialized_provider
  = (Throw ErrTransactionCancelled, initialized_provider,
     [CallRequest (batch_call [a_transaction]) (Resolved (JArr [JStr "{"]))]) /\
  signTransactions (world confused) [a_transaction; a_transaction] initialized_provider
  = (Throw ErrTransactionCancelled, initialized_provider,
     [CallRequest (batch_call [a_transaction; a_transaction]) (Resolved (JStr "signed"))]).
Proof.
  split; [|split].
  - destruct (signTransactions_failure_is_cancelled
                (world declining) [] initialized_provider)
      as (_ & _ & Hrejected & _).
    apply (Hrejected (extension declining) [] user_rejected); reflexivity.
  - destruct (signTransactions_failure_is_cancelled
                (world confused) [a_transaction] initialized_provider)
      as (_ & _ & _ & Hmalformed & _).
    apply (Hmalformed (extension confused) [a_transaction] (JArr [JStr "{"])
                      (LibraryError "SyntaxError")); reflexivity.
  - destruct (signTransactions_failure_is_cancelled
                (world confused) [a_transaction; a_transaction] initialized_provider)
      as (_ & _ & _ & Hmalformed & _).
    apply (Hmalformed (extension confused) [a_transaction; a_transaction]
                      (JStr "signed") (TypeError "map is not a function"));
      reflexivity.
Defined.

(** The scenario of the specification: the RPC answers ["aa"], the message
    carries no address, the session is the one of Alice. *)
Lemma signMessage_builds_message_witness :
  signMessage (world approving) hello (provider_of alice_bech32)
  = (Return {| msg_data := list_byte_of_string "hello";
               msg_address := Some alice_pubkey;
               msg_signer := "metamask";
               msg_version := 1;
               msg_signature := Some [xaa] |},
     provider_of alice_bech32,
     [CallRequest (message_call "hello") (Resolved (JStr "aa"))]).
Proof.
  destruct (signMessage_builds_message
              (world approving) (extension approving) hello "aa"
              (provider_of alice_bech32) eq_refl eq_refl eq_refl eq_refl eq_refl)
    as [Hbuilt _].
  apply (Hbuilt alice_pubkey). vm_compute. reflexivity.
Defined.

(** A session without setters: handshake, then a login with a token. *)
Lemma address_invariant_kept_witness :
  address_invariant
    {| account := {| address := JStr alice_bech32; name := None;
                     signature := Some (JStr "deadbeef") |};
       initialized := true |}
    [Obs call_init true handshake_events;
     Obs (call_login (Some "abc")) true
         [CallRequest address_call (Resolved (JStr alice_bech32));
          CallRequest (token_call "abc") (Resolved (JStr "deadbeef"))]].
Proof.
  destruct address_invariant_kept as (_ & _ & Hreachable).
  apply Hreachable.
  apply (reach_call not_a_setter initialized_provider [Obs call_init true handshake_events]
                    (world approving) (call_login (Some "abc")));
    [| reflexivity | reflexivity].
  apply (reach_call not_a_setter new_MetamaskProvider [] (world approving) call_init);
    [| reflexivity | reflexivity].
  apply reach_new.
Defined.

(** ** Where the specification says more than the code does *)

(** [init()] on a provider that is already initialized returns true in a
    world without the extension: the marker was there for the first call
    and is gone (or taken over by another wallet) for the second. *)
Lemma init_true_without_extension :
  reachable any_call initialized_provider [Obs call_init true handshake_events] /\
  isMetamaskInstalled world_without_extension = false /\
  handshake_fails world_without_extension /\
  init world_without_extension initialized_provider
  = (Return true, initialized_provider, []).
Proof.
  split; [|split; [|split]].
  - apply (reach_call any_call new_MetamaskProvider [] (world approving) call_init);
      [apply reach_new | reflexivity | reflexivity].
  - reflexivity.
  - left. now exists (JStr "ethereum is undefined").
  - reflexivity.
Qed.

(** [setAddress] on the fresh provider: the address is non-empty, the
    provider is not initialized and nobody has logged in. *)
Lemma setAddress_breaks_specified_invariant :
  reachable any_call addressed_provider [Obs (call_setAddress alice_bech32) true []] /\
  connected addressed_provider = true /\
  initialized addressed_provider = false /\
  ~ specified_invariant addressed_provider [Obs (call_setAddress alice_bech32) true []].
Proof.
  split; [|split; [|split]].
  - apply (reach_call any_call new_MetamaskProvider [] world_without_extension
                      (call_setAddress alice_bech32));
      [apply reach_new | reflexivity | reflexivity].
  - reflexivity.
  - reflexivity.
  - intros Hinv. destruct (Hinv eq_refl) as [Hinit _]. discriminate Hinit.
Qed.

(** So does [setAccount]. *)
Lemma setAccount_breaks_specified_invariant :
  reachable any_call {| account := named_account; initialized := false |}
            [Obs (call_setAccount named_account) true []] /\
  ~ specified_invariant {| account := named_account; initialized := false |}
                        [Obs (call_setAccount named_account) true []].
Proof.
  split.
  - apply (reach_call any_call new_MetamaskProvider [] world_without_extension
                      (call_setAccount named_account));
      [apply reach_new | reflexivity | reflexivity].
  - intros Hinv. destruct (Hinv eq_refl) as [Hinit _]. discriminate Hinit.
Qed.

(** Without any setter: a [login] whose token signature is declined
    leaves the address set although no [login] has succeeded. *)
Lemma failed_login_breaks_specified_invariant :
  reachable not_a_setter (provider_of alice_bech32) declined_login_session /\
  connected (provider_of alice_bech32) = true /\
  ~ login_succeeded declined_login_session /\
  ~ specified_invariant (provider_of alice_bech32) declined_login_session.
Proof.
  assert (Hnone : ~ login_succeeded declined_login_session).
  { intros (token & sent & [Heq | [Heq | []]]); discriminate Heq. }
  split; [|split; [|split]].
  - apply (reach_call not_a_setter initialized_provider
                      [Obs call_init true handshake_events]
                      (world declining) (call_login (Some "abc")));
      [| reflexivity | reflexivity].
    apply (reach_call not_a_setter new_MetamaskProvider [] (world declining) call_init);
      [apply reach_new | reflexivity | reflexivity].
  - reflexivity.
  - exact Hnone.
  - intros Hinv. destruct (Hinv eq_refl) as [_ Hlogin]. now apply Hnone.
Qed.

(** A connected provider whose session address is not bech32 (here an
    Ethereum-style one), a message without an address, the RPC answering
    ["aa"]: [signMessage] throws what [Address.fromBech32] threw. *)
Lemma signMessage_throws_on_foreign_address :
  connected (provider_of ethereum_style_address) = true /\
  isMetamaskInstalled (world approving) = true /\
  request (extension approving) (message_call "hello") = Resolved (JStr "aa") /\
  signMessage (world approving) hello (provider_of ethereum_style_address)
  = (Throw (LibraryError "ErrAddressCannotCreate"),
     provider_of ethereum_style_address,
     [CallRequest (message_call "hello") (Resolved (JStr "aa"))]).
Proof. repeat split; vm_compute; reflexivity. Qed.

(** ** Instances of the further properties *)

Lemma init_without_extension_witness :
  init world_other_wallet new_MetamaskProvider
  = (Return false, new_MetamaskProvider, []).
Proof.
  apply (init_without_extension world_other_wallet new_MetamaskProvider).
  right. eexists. split; reflexivity.
Defined.


Lemma login_stores_answers_witness :
  login (world approving) (Some "abc") initialized_provider
  = (Return alice_account, with_account alice_account initialized_provider,
     [CallRequest address_call (Resolved (JStr alice_bech32));
      CallRequest (token_call "abc") (Resolved (JStr "deadbeef"))]).
Proof.
  destruct (login_stores_answers (world approving) (extension approving)
              (JStr alice_bech32) initialized_provider eq_refl eq_refl eq_refl)
    as [_ Htoken].
  apply (Htoken "abc" (JStr "deadbeef")); [discriminate | reflexivity].
Defined.

Lemma login_address_rejected_witness :
  login (world locked) (Some "abc") (provider_of alice_bech32)
  = (Throw (Rejection (JStr "wallet is locked")), provider_of alice_bech32,
     [CallRequest address_call (Rejected (JStr "wallet is locked"))]).
Proof.
  apply (login_address_rejected (world locked) (extension locked) (Some "abc")
           (JStr "wallet is locked") (provider_of alice_bech32));
    reflexivity.
Defined.

Lemma login_without_marker_witness :
  exists acc,
    login world_without_extension (Some "abc") (provider_of alice_bech32)
    = (Return acc, with_account acc (provider_of alice_bech32), []) /\
    address acc = JUndefined.
Proof.
  destruct (login_without_marker world_without_extension (Some "abc")
              (provider_of alice_bech32) eq_refl eq_refl)
    as (acc & Hrun & Haddr & _).
  exists acc. now split.
Defined.

Lemma login_returns_stored_account_witness :
  getAddress (with_account alice_account initialized_provider)
  = (Return (JStr alice_bech32), with_account alice_account initialized_provider, []).
Proof.
  destruct (login_returns_stored_account
              (world approving) (Some "abc") initialized_provider
              (with_account alice_account initialized_provider) alice_account
              [CallRequest address_call (Resolved (JStr alice_bech32));
               CallRequest (token_call "abc") (Resolved (JStr "deadbeef"))]
              eq_refl)
    as (_ & _ & Hget & _).
  exact Hget.
Defined.

Lemma signTransactions_returns_iff_witness :
  signTransactions (world approving) [a_transaction; a_transaction] new_MetamaskProvider
  = (Return [JObj []; JObj []], new_MetamaskProvider,
     [CallRequest (batch_call [a_transaction; a_transaction])
                  (Resolved (JArr [JStr "{}"; JStr "{}"]))]).
Proof.
  apply (signTransactions_returns_iff (world approving)
           [a_transaction; a_transaction] [JObj []; JObj []]
           new_MetamaskProvider new_MetamaskProvider).
  split; [reflexivity|].
  exists (extension approving), [a_transaction; a_transaction], [JStr "{}"; JStr "{}"].
  repeat split; repeat constructor.
Defined.

Lemma signTransaction_outcomes_witness :
  match signTransaction (world confused) a_transaction initialized_provider with
  | (Throw e, this', sent) =>
      this' = initialized_provider /\ List.length sent <= 1 /\
      (e = ErrTransactionCancelled \/ e = ErrCannotSignSingleTransaction)
  | (Return _, _, _) => False
  end.
Proof.
  exact (signTransaction_outcomes (world confused) a_transaction
           initialized_provider initialized_provider
           (Throw ErrTransactionCancelled)
           [CallRequest (batch_call [a_transaction]) (Resolved (JArr [JStr "{"]))]
           eq_refl).
Defined.

Lemma signMessage_rejection_propagates_witness :
  signMessage (world declining) hello (provider_of alice_bech32)
  = (Throw (Rejection user_rejected), provider_of alice_bech32,
     [CallRequest (message_call "hello") (Rejected user_rejected)]).
Proof.
  apply (signMessage_rejection_propagates (world declining) (extension declining)
           hello user_rejected (provider_of alice_bech32));
    reflexivity.
Defined.

Lemma signMessage_signature_round_trip_witness :
  exists signedMessage sent,
    signMessage (world echoing) hello (provider_of alice_bech32)
    = (Return signedMessage, provider_of alice_bech32, sent) /\
    msg_signature signedMessage = Some [x01; x39].
Proof.
  destruct (signMessage_signature_round_trip
              (world echoing) (extension echoing) hello [x01; x39] alice_pubkey
              (provider_of alice_bech32) eq_refl eq_refl eq_refl eq_refl)
    as (m & sent & Hrun & Hsig & _).
  - vm_compute. reflexivity.
  - exists m, sent. now split.
Defined.

Lemma calls_send_only_their_requests_witness :
  Forall (may_send (world declining) (call_login (Some "abc")))
         [CallRequest address_call (Resolved (JStr alice_bech32));
          CallRequest (token_call "abc") (Rejected user_rejected)].
Proof.
  apply (calls_send_only_their_requests (world declining) (call_login (Some "abc"))
           initialized_provider (provider_of alice_bech32) false).
  reflexivity.
Defined.

Lemma initialized_is_permanent_witness :
  initialized (with_account empty_account (provider_of alice_bech32)) = true.
Proof.
  apply (initialized_is_permanent world_without_extension call_logout
           (provider_of alice_bech32)
           (with_account empty_account (provider_of alice_bech32)) true []);
    reflexivity.
Defined.

Lemma reading_calls_keep_the_object_witness :
  reads_only (call_signMessage hello) = true /\
  snd (fst (perform (world approving) (call_signMessage hello) (provider_of alice_bech32)))
  = provider_of alice_bech32.
Proof.
  split; [reflexivity|].
  apply (reading_calls_keep_the_object (world approving) (call_signMessage hello)
           (provider_of alice_bech32)
           (snd (fst (perform (world approving) (call_signMessage hello)
                              (provider_of alice_bech32))))
           true [CallRequest (message_call "hello") (Resolved (JStr "aa"))]);
    vm_compute; reflexivity.
Defined.

Lemma setters_then_getters_witness :
  exists e,
    getAddress addressed_provider = (Throw e, addressed_provider, []) /\
    is_NotInitialized e = true.
Proof.
  destruct (setters_then_getters alice_bech32 named_account new_MetamaskProvider)
    as [(this1 & Hset & _ & _ & _ & _ & Hthrow) _].
  inversion Hset; subst this1.
  exact (Hthrow eq_refl).
Defined.

Lemma login_error_carries_token_witness :
  login (world approving) (Some "abc") new_MetamaskProvider
  = (Throw (JsError "Metamask provider is not initialised, call init() firstabc"),
     new_MetamaskProvider, []).
Proof.
  apply (login_error_carries_token (world approving) (Some "abc") new_MetamaskProvider).
  reflexivity.
Defined.

Lemma signMessage_not_connected_witness :
  signMessage world_other_wallet hello (provider_of alice_bech32)
  = (Throw ErrAccountNotConnected, provider_of alice_bech32, []).
Proof.
  apply (signMessage_not_connected world_other_wallet hello (provider_of alice_bech32)).
  right. reflexivity.
Defined.
